(** * od-db: a file-per-record document store and its backup routine

    A shallow embedding of the ODModel class (the collection-scoped CRUD
    engine with its filter evaluator) and of ODDb.backup (dated snapshots with
    a 30 day retention sweep), followed by the properties checked on them.

    Layout
    - [JS]       the JavaScript values and coercions the code relies on;
    - [Lodash]   [get] and [isObject] as the evaluator uses them;
    - [Fs]       one collection directory, exceptions, and the monad in which
                 the asynchronous methods are written;
    - [ODModel]  the methods of the class, in the two editions of the file
                 that carries them, plus the oldest edition of [findOne];
    - [ODDb]     [backup] with [rmdir], [mkdir], [copyFile] and [copyDir];
    - [Terms], [BackupTerms], [Examples]  the vocabulary of the statements
                 and the sample data;
    - the lemmas and, in [StoreClaims], [RecordClaims] and [BackupClaims],
      the theorems. *)

From Stdlib Require Import ZArith Ascii String List Bool Lia.
From Stdlib Require Import DecimalString DecimalPos.
From stdpp Require Import gmap strings list fin_maps.

Set Warnings "-register-all".

(* ===================================================================== *)
(** ** JavaScript values *)
(* ===================================================================== *)

Module JS.

(** Numbers. The store only ever compares, prints and parses numbers, so a
    number is an integer-valued double in the safe range, or NaN (which the
    coercion of [undefined] produces). *)
Inductive number :=
| NaN
| Num (z : Z).

(** A value is what [JSON.parse] can return, together with [undefined].
    Objects are finite maps from property names to values. *)
Inductive value :=
| VUndefined
| VNull
| VBool (b : bool)
| VNum (n : number)
| VStr (s : string)
| VArr (l : list value)
| VObj (m : gmap string value).

Abbreviation obj := (gmap string value).

(** [ToBoolean]: the falsy values are undefined, null, false, NaN, 0 and the
    empty string. *)
Definition ToBoolean (v : value) : bool :=
  match v with
  | VUndefined | VNull => false
  | VBool b => b
  | VNum NaN => false
  | VNum (Num z) => negb (z =? 0)%Z
  | VStr s => negb (String.eqb s "")
  | VArr _ | VObj _ => true
  end.

Fixpoint join (sep : string) (l : list string) : string :=
  match l with
  | [] => ""
  | [s] => s
  | s :: rest => s +:+ sep +:+ join sep rest
  end.

Definition NumberToString (n : number) : string :=
  match n with
  | NaN => "NaN"
  | Num z => NilZero.string_of_int (Z.to_int z)
  end.

(** [ToString], as a template literal applies it. Arrays print through
    [Array.prototype.join], which prints undefined and null as nothing. *)
Fixpoint ToString (v : value) : string :=
  match v with
  | VUndefined => "undefined"
  | VNull => "null"
  | VBool true => "true"
  | VBool false => "false"
  | VNum n => NumberToString n
  | VStr s => s
  | VArr l =>
      join "," (map (fun x => match x with
                              | VUndefined | VNull => ""
                              | _ => ToString x
                              end) l)
  | VObj _ => "[object Object]"
  end.

(** [Number(s)] on a string. Covered: the empty string (0) and an optional
    sign followed by decimal digits. Every other text is NaN here; surrounding
    white space, fractions, exponents, radix prefixes and [Infinity] are left
    out of the model. *)
Definition digits (s : string) : number :=
  match s with
  | "" => NaN
  | _ => match NilEmpty.uint_of_string s with
         | Some d => Num (Z.of_N (N.of_uint d))
         | None => NaN
         end
  end.

Definition negate (n : number) : number :=
  match n with
  | NaN => NaN
  | Num z => Num (- z)
  end.

Definition StringToNumber (s : string) : number :=
  match s with
  | "" => Num 0
  | String "+" r => digits r
  | String "-" r => negate (digits r)
  | _ => digits s
  end.

(** [ToPrimitive] with hint number: arrays and plain objects have no
    primitive [valueOf], so they fall back to [toString]. *)
Definition ToPrimitive (v : value) : value :=
  match v with
  | VArr _ | VObj _ => VStr (ToString v)
  | _ => v
  end.

Definition ToNumber (v : value) : number :=
  match ToPrimitive v with
  | VUndefined => NaN
  | VNull => Num 0
  | VBool b => Num (if b then 1 else 0)
  | VNum n => n
  | VStr s => StringToNumber s
  | VArr _ | VObj _ => NaN
  end.

(** [Number(x)] where [x] is an element of the array [split] returned, or
    [undefined] past its end. *)
Definition Number (x : option string) : number :=
  match x with
  | None => NaN
  | Some s => StringToNumber s
  end.

(** The abstract relational comparison [x < y]. [None] is the "undefined"
    answer a NaN operand gives. *)
Definition IsLessThan (x y : value) : option bool :=
  match ToPrimitive x, ToPrimitive y with
  | VStr a, VStr b => Some (String.ltb a b)
  | px, py =>
      match ToNumber px, ToNumber py with
      | Num a, Num b => Some (a <? b)%Z
      | _, _ => None
      end
  end.

Definition lt (x y : value) : bool :=
  match IsLessThan x y with Some true => true | _ => false end.
Definition gt (x y : value) : bool :=
  match IsLessThan y x with Some true => true | _ => false end.
Definition le (x y : value) : bool :=
  match IsLessThan y x with Some false => true | _ => false end.
Definition ge (x y : value) : bool :=
  match IsLessThan x y with Some false => true | _ => false end.

(** [x === y]. An object or an array is only identical to itself; a value
    read from a file and a value built by the caller are never the same
    reference, so two of them always differ. *)
Definition IsStrictlyEqual (x y : value) : bool :=
  match x, y with
  | VUndefined, VUndefined => true
  | VNull, VNull => true
  | VBool a, VBool b => Bool.eqb a b
  | VNum (Num a), VNum (Num b) => (a =? b)%Z
  | VStr a, VStr b => String.eqb a b
  | _, _ => false
  end.

(** [SameValueZero], the equality of [Array.prototype.includes]. *)
Definition SameValueZero (x y : value) : bool :=
  match x, y with
  | VNum NaN, VNum NaN => true
  | _, _ => IsStrictlyEqual x y
  end.

(** [hay.includes(needle)] on strings. *)
Fixpoint String_includes (hay needle : string) : bool :=
  String.prefix needle hay
  || match hay with
     | "" => false
     | String _ rest => String_includes rest needle
     end.

(** [s.split(sep)] for a one character separator. *)
Fixpoint split (sep : ascii) (s : string) : list string :=
  match s with
  | "" => [""]
  | String c rest =>
      if Ascii.eqb c sep then "" :: split sep rest
      else match split sep rest with
           | [] => [String c ""]
           | w :: ws => String c w :: ws
           end
  end.

(** An array index in canonical form: digits that print back to themselves. *)
Definition array_index (k : string) : option nat :=
  match k with
  | "" => None
  | _ => match NilEmpty.uint_of_string k with
         | Some d =>
             let n := Nat.of_uint d in
             if String.eqb (NilZero.string_of_uint (Nat.to_uint n)) k
             then Some n else None
         | None => None
         end
  end.

Definition char_at (s : string) (i : nat) : option value :=
  match String.get i s with
  | Some c => Some (VStr (String c ""))
  | None => None
  end.

(** Own properties of a value: the fields of an object, the elements and
    [length] of an array, the characters and [length] of a string. Methods
    inherited from the prototypes are left out of the model. *)
Definition property (v : value) (k : string) : option value :=
  match v with
  | VObj m => m !! k
  | VArr l =>
      if String.eqb k "length" then Some (VNum (Num (Z.of_nat (length l))))
      else match array_index k with
           | Some i => l !! i
           | None => None
           end
  | VStr s =>
      if String.eqb k "length"
      then Some (VNum (Num (Z.of_nat (String.length s))))
      else match array_index k with
           | Some i => char_at s i
           | None => None
           end
  | _ => None
  end.

(** [k in v] *)
Definition has (v : value) (k : string) : bool :=
  match property v k with Some _ => true | None => false end.

(** [v[k]] *)
Definition member (v : value) (k : string) : value :=
  match property v k with Some x => x | None => VUndefined end.

Fixpoint chars (s : string) (i : nat) : list (string * value) :=
  match s with
  | "" => []
  | String c rest =>
      (NilZero.string_of_uint (Nat.to_uint i), VStr (String c "")) :: chars rest (S i)
  end.

(** [{...v}]: the own enumerable properties of [v] as a fresh object. *)
Definition spread (v : value) : obj :=
  match v with
  | VObj m => m
  | VArr l =>
      list_to_map (imap (fun i x => (NilZero.string_of_uint (Nat.to_uint i), x)) l)
  | VStr s => list_to_map (chars s 0)
  | _ => ∅
  end.

(** [JSON.parse(JSON.stringify(v))]: what comes back from a file after [v]
    was written to it. Properties holding undefined are dropped; undefined
    in an array and NaN become null. *)
Fixpoint json_clone (v : value) : value :=
  match v with
  | VUndefined => VNull
  | VNum NaN => VNull
  | VArr l => VArr (map json_clone l)
  | VObj m =>
      VObj (omap (fun x => match x with
                           | VUndefined => None
                           | _ => Some (json_clone x)
                           end) m)
  | _ => v
  end.

(** What [JSON.stringify] and [JSON.parse] make of one property. *)
Definition clone_field (x : value) : option value :=
  match x with
  | VUndefined => None
  | _ => Some (json_clone x)
  end.

(** A value is JSON-compatible when a trip through a file gives it back. *)
Definition json_compatible (v : value) : Prop := json_clone v = v.

End JS.

(* ===================================================================== *)
(** ** lodash *)
(* ===================================================================== *)

Module Lodash.
Import JS.

(** [isObject]: true of objects and arrays (and functions), false of null
    and of the primitives. *)
Definition isObject (v : value) : bool :=
  match v with
  | VArr _ | VObj _ => true
  | _ => false
  end.

(** [castPath] for a string path: a path without a dot, or one the object
    has as a direct property, is a single key; otherwise it is cut at the
    dots. The bracket syntax of lodash paths is left out of the model. *)
Definition castPath (path : string) (object : value) : list string :=
  if negb (String_includes path ".") || has object path
  then [path]
  else split "." path.

Fixpoint baseGet (object : value) (path : list string) : value :=
  match path with
  | [] => object
  | key :: rest =>
      match object with
      | VUndefined | VNull => VUndefined
      | _ => baseGet (member object key) rest
      end
  end.

(** [get(object, path)] without a default value. *)
Definition get (object : value) (path : string) : value :=
  match object with
  | VUndefined | VNull => VUndefined
  | _ => baseGet object (castPath path object)
  end.

End Lodash.

(* ===================================================================== *)
(** ** The collection directory and the effects of the methods *)
(* ===================================================================== *)

Module Fs.
Import JS.

(** What the methods can throw. [Error context cause] is
    [new Error(`context: ${cause}`)]. *)
Inductive exn :=
| ENOENT
| EISDIR
| ENOTDIR
| EEXIST
| SyntaxError
| TypeError
| Error (message : string) (cause : option exn).

Inductive outcome (A : Type) :=
| Ok (a : A)
| Throw (e : exn).
Arguments Ok {A} a.
Arguments Throw {A} e.

(** The text of a file, seen through [JSON.parse], which is all the store
    does with it. *)
Inductive text :=
| Parses (v : value)
| Garbled.

Definition JSON_parse (t : text) : outcome value :=
  match t with
  | Parses v => Ok v
  | Garbled => Throw SyntaxError
  end.

Definition JSON_stringify (v : value) : text := Parses (json_clone v).

(** An entry of the collection directory. *)
Inductive entry :=
| File (t : text)
| Directory.

(** The world a method runs in: the collection directory (file name to
    entry), [process.env.NODE_ENV], and the two sources the methods draw
    from, [nanoid()] and the clock behind [new Date().toISOString()], each
    with the number of draws so far. *)
Record World := {
  files : gmap string entry;
  NODE_ENV : option string;
  nanoid : nat -> string;
  ids_drawn : nat;
  clock : nat -> string;
  clock_reads : nat;
}.

Definition with_files (w : World) (fs : gmap string entry) : World :=
  {| files := fs; NODE_ENV := NODE_ENV w;
     nanoid := nanoid w; ids_drawn := ids_drawn w;
     clock := clock w; clock_reads := clock_reads w |}.

(** Computations that read and change the world and may throw. The world
    reached when something is thrown is kept: writes made before a failure
    stay on disk. *)
Definition IO (A : Type) : Type := World -> outcome A * World.

Definition ret {A} (a : A) : IO A := fun w => (Ok a, w).
Definition throw {A} (e : exn) : IO A := fun w => (Throw e, w).

Definition bind {A B} (m : IO A) (k : A -> IO B) : IO B :=
  fun w =>
    match m w with
    | (Ok a, w') => k a w'
    | (Throw e, w') => (Throw e, w')
    end.

Definition try_catch {A} (m : IO A) (handler : exn -> IO A) : IO A :=
  fun w =>
    match m w with
    | (Ok a, w') => (Ok a, w')
    | (Throw e, w') => handler e w'
    end.

Definition lift {A} (r : outcome A) : IO A := fun w => (r, w).

Declare Scope io_scope.
Delimit Scope io_scope with io.
Notation "x <- m ;; k" := (bind m (fun x => k))
  (at level 100, m at next level, right associativity) : io_scope.
Notation "m ;;; k" := (bind m (fun _ => k))
  (at level 100, right associativity) : io_scope.
Notation "'try' m 'catch' h" := (try_catch m h)
  (at level 100, m at level 200, right associativity) : io_scope.

(** [fs.promises.readdir(collectionPath)] *)
Definition readdir : IO (list string) :=
  fun w => (Ok ((map_to_list (files w)).*1), w).

(** [fs.promises.readFile(path, 'utf8')] *)
Definition readFile (name : string) : IO text :=
  fun w =>
    match files w !! name with
    | Some (File t) => (Ok t, w)
    | Some Directory => (Throw EISDIR, w)
    | None => (Throw ENOENT, w)
    end.

(** [fs.promises.writeFile(path, data)] *)
Definition writeFile (name : string) (data : text) : IO unit :=
  fun w =>
    match files w !! name with
    | Some Directory => (Throw EISDIR, w)
    | _ => (Ok tt, with_files w (<[name := File data]> (files w)))
    end.

(** [fs.promises.unlink(path)] *)
Definition unlink (name : string) : IO unit :=
  fun w =>
    match files w !! name with
    | Some (File _) => (Ok tt, with_files w (delete name (files w)))
    | Some Directory => (Throw EISDIR, w)
    | None => (Throw ENOENT, w)
    end.

(** [new Date().toISOString()] *)
Definition now : IO string :=
  fun w =>
    (Ok (clock w (clock_reads w)),
     {| files := files w; NODE_ENV := NODE_ENV w;
        nanoid := nanoid w; ids_drawn := ids_drawn w;
        clock := clock w; clock_reads := S (clock_reads w) |}).

(** [path.join(this.collectionPath, name)]: entries are addressed by their
    name in the collection directory. This is what [path.join] gives for a
    name without a path separator; a name that holds one, which [path.join]
    would normalise or resolve out of the directory, is not covered. *)
Definition join_path (name : string) : string := name.

End Fs.

(* ===================================================================== *)
(** ** ODModel *)
(* ===================================================================== *)

Module ODModel.
Import JS Lodash Fs.
Local Open Scope io_scope.

(** Modelled from the spec: the type [ODFilter], declared in [./types], which
    is not among the sources. The spec has a filter be a mapping from a field
    path to a literal, an array or an operator object. It is kept as the list
    of its properties in the order [for (const key in filter)] visits them,
    because a throwing operand makes that order observable; the values are
    arbitrary, as [matchesFilter] inspects them at run time. *)
Definition ODFilter := list (string * value).

(** [operand.includes(documentValue)] for the operand of [$in] and [$nin]:
    an array method, a string method, and a TypeError on anything else. *)
Definition includes (operand documentValue : value) : outcome bool :=
  match operand with
  | VArr l => Ok (existsb (SameValueZero documentValue) l)
  | VStr s => Ok (String_includes s (ToString documentValue))
  | _ => Throw TypeError
  end.

(** The body of the loop of [matchesFilter] for one key: [Ok false] where
    the code returns false, [Ok true] where it falls through to the next
    key. *)
Definition matchesField (documentValue filterValue : value) : outcome bool :=
  if isObject filterValue then
    if has filterValue "$eq"
       && negb (IsStrictlyEqual documentValue (member filterValue "$eq"))
    then Ok false
    else if has filterValue "$ne"
            && IsStrictlyEqual documentValue (member filterValue "$ne")
    then Ok false
    else if has filterValue "$gt" && le documentValue (member filterValue "$gt")
    then Ok false
    else if has filterValue "$gte" && lt documentValue (member filterValue "$gte")
    then Ok false
    else if has filterValue "$lt" && ge documentValue (member filterValue "$lt")
    then Ok false
    else if has filterValue "$lte" && gt documentValue (member filterValue "$lte")
    then Ok false
    else
      match (if has filterValue "$in"
             then includes (member filterValue "$in") documentValue
             else Ok true) with
      | Throw e => Throw e
      | Ok false => Ok false
      | Ok true =>
          match (if has filterValue "$nin"
                 then includes (member filterValue "$nin") documentValue
                 else Ok false) with
          | Throw e => Throw e
          | Ok true => Ok false
          | Ok false =>
              if has filterValue "$exists"
                 && ((ToBoolean (member filterValue "$exists")
                      && IsStrictlyEqual documentValue VUndefined)
                     || (negb (ToBoolean (member filterValue "$exists"))
                         && negb (IsStrictlyEqual documentValue VUndefined)))
              then Ok false
              else Ok true
          end
      end
  else
    (* the [Array.isArray] branch of the source is never reached: an array
       already satisfies [isObject] *)
    if negb (IsStrictlyEqual filterValue documentValue) then Ok false
    else Ok true.

(** [matchesFilter(document, filter)], part_000 lines 231-285 and 557-611. *)
Fixpoint matchesFilter (document : value) (filter : ODFilter) : outcome bool :=
  match filter with
  | [] => Ok true
  | (key, filterValue) :: rest =>
      match matchesField (get document key) filterValue with
      | Ok true => matchesFilter document rest
      | r => r
      end
  end.

(** [this.generateId()] *)
Definition generateId : IO string :=
  fun w =>
    (Ok (nanoid w (ids_drawn w)),
     {| files := files w; NODE_ENV := NODE_ENV w;
        nanoid := nanoid w; ids_drawn := S (ids_drawn w);
        clock := clock w; clock_reads := clock_reads w |}).

(** [`${id}.json`] joined to the collection path. *)
Definition json_path (id : value) : string := join_path (ToString id +:+ ".json").

(** [findOne(id)], part_000 lines 21-34 and 327-340. The message written to
    the console in the handler is not part of the world. *)
Definition findOne (id : value) : IO value :=
  if negb (ToBoolean id) then ret VNull
  else
    let filePath := json_path id in
    try (data <- readFile filePath ;;
         lift (JSON_parse data))
    catch (fun error => ret VNull).

(** The loop of [findMany]; [results] is the array being filled. *)
Fixpoint findMany_loop (query : option ODFilter) (files : list string)
    (results : list value) : IO (list value) :=
  match files with
  | [] => ret results
  | file :: rest =>
      if String_includes file ".DS_Store" then findMany_loop query rest results
      else
        data <- readFile (join_path file) ;;
        document <- lift (JSON_parse data) ;;
        match query with
        | None => findMany_loop query rest (results ++ [document])
        | Some q =>
            matched <- lift (matchesFilter document q) ;;
            if (matched : bool) then findMany_loop query rest (results ++ [document])
            else findMany_loop query rest results
        end
  end.

(** [findMany(query?)], part_000 lines 36-66 and 347-377. The message of
    lines 36-66 also names the collection path. *)
Definition findMany (query : option ODFilter) : IO (list value) :=
  files <- readdir ;;
  try findMany_loop query files []
  catch (fun error => throw (Error "Error finding documents" (Some error))).

(** [insertOne(document, fileName?)], part_000 lines 70-87 and 387-404. The
    type [T extends ODModelBase] of the document is declared in [./types],
    which is not among the sources; as in the spec, a document is an object,
    a mapping of field names to values. *)
Definition insertOne (document : obj) (fileName : option string) : IO value :=
  id <- (if ToBoolean (member (VObj document) "id")
         then ret (member (VObj document) "id")
         else fresh <- generateId ;; ret (VStr fresh)) ;;
  let finalFileName :=
    match fileName with
    | Some name => if ToBoolean (VStr name) then VStr name else id
    | None => id
    end in
  let filePath := json_path finalFileName in
  try (createdAt <- now ;;
       updatedAt <- now ;;
       let insertedDocument :=
         <["updatedAt" := VStr updatedAt]>
           (<["createdAt" := VStr createdAt]> (<["id" := id]> document)) in
       writeFile filePath (JSON_stringify (VObj insertedDocument)) ;;;
       ret (VObj insertedDocument))
  catch (fun error => throw (Error "Error inserting document" (Some error))).

(** The loop of [findManyAndUpdate]. *)
Fixpoint findManyAndUpdate_loop (query : ODFilter) (update : obj)
    (files : list string) (updatedDocuments : list value) : IO (list value) :=
  match files with
  | [] => ret updatedDocuments
  | file :: rest =>
      if String_includes file ".DS_Store"
      then findManyAndUpdate_loop query update rest updatedDocuments
      else
        let filePath := join_path file in
        data <- readFile filePath ;;
        document <- lift (JSON_parse data) ;;
        matched <- lift (matchesFilter document query) ;;
        (if (matched : bool) then
           let updatedDocument := update ∪ spread document in
           writeFile filePath (JSON_stringify (VObj updatedDocument))
         else ret tt) ;;;
        findManyAndUpdate_loop query update rest (updatedDocuments ++ [document])
  end.

(** [findManyAndUpdate(query, update)], part_000 lines 132-158 and 466-492. *)
Definition findManyAndUpdate (query : ODFilter) (update : obj) : IO (list value) :=
  files <- readdir ;;
  try findManyAndUpdate_loop query update files []
  catch (fun error =>
           throw (Error "Error finding and updating documents" (Some error))).

(** The loop of [findManyAndDelete]. *)
Fixpoint findManyAndDelete_loop (query : ODFilter) (files : list string) : IO unit :=
  match files with
  | [] => ret tt
  | file :: rest =>
      if String_includes file ".DS_Store" then findManyAndDelete_loop query rest
      else
        let filePath := join_path file in
        data <- readFile filePath ;;
        document <- lift (JSON_parse data) ;;
        matched <- lift (matchesFilter document query) ;;
        (if (matched : bool) then unlink filePath else ret tt) ;;;
        findManyAndDelete_loop query rest
  end.

(** [findManyAndDelete(query)], part_000 lines 177-200 (which returns true)
    and 521-543 (which returns nothing). *)
Definition findManyAndDelete (query : ODFilter) : IO bool :=
  files <- readdir ;;
  try (findManyAndDelete_loop query files ;;; ret true)
  catch (fun error =>
           throw (Error "Error finding and deleting documents" (Some error))).

(** The loop of [insertMany]; [insertedDocuments] is the array being
    filled. *)
Fixpoint insertMany_loop (documents : list obj) (insertedDocuments : list value)
    : IO (list value) :=
  match documents with
  | [] => ret insertedDocuments
  | document :: rest =>
      id <- (if ToBoolean (member (VObj document) "id")
             then ret (member (VObj document) "id")
             else fresh <- generateId ;; ret (VStr fresh)) ;;
      let filePath := json_path id in
      createdAt <- now ;;
      updatedAt <- now ;;
      let insertedDocument :=
        <["updatedAt" := VStr updatedAt]>
          (<["createdAt" := VStr createdAt]> (<["id" := id]> document)) in
      writeFile filePath (JSON_stringify (VObj insertedDocument)) ;;;
      insertMany_loop rest (insertedDocuments ++ [VObj insertedDocument])
  end.

(** [insertMany(documents)], part_000 lines 89-108 and 411-430. *)
Definition insertMany (documents : list obj) : IO (list value) :=
  try insertMany_loop documents []
  catch (fun error => throw (Error "Error inserting documents" (Some error))).

(** [countDocuments()], part_000 lines 203-206 and 550-553. *)
Definition countDocuments : IO nat :=
  files <- readdir ;;
  ret (length files).

(** The edition of part_000 lines 1-290, the one that has [dropCollection]. *)
Module Guarded.

(** [findByIdAndUpdate(id, update: T)], lines 111-130. *)
Definition findByIdAndUpdate (id : string) (update : obj) : IO value :=
  let filePath := json_path (VStr id) in
  try (existingData <- findOne (VStr id) ;;
       if ToBoolean existingData then
         updatedAt <- now ;;
         let updatedData :=
           <["updatedAt" := VStr updatedAt]>
             (<["id" := member existingData "id"]> update) in
         writeFile filePath (JSON_stringify (VObj updatedData)) ;;;
         ret (VObj updatedData)
       else ret VNull)
  catch (fun error =>
           throw (Error "Error finding and updating document" (Some error))).

(** [findByIdAndDelete(id)], lines 161-175: it answers true or false. *)
Definition findByIdAndDelete (id : string) : IO bool :=
  let filePath := json_path (VStr id) in
  try (existingData <- findOne (VStr id) ;;
       if ToBoolean existingData then
         unlink filePath ;;;
         ret true
       else ret false)
  catch (fun error =>
           throw (Error "Error finding and deleting document" (Some error))).

(** The loop of [dropCollection]. *)
Fixpoint dropCollection_loop (files : list string) : IO unit :=
  match files with
  | [] => ret tt
  | file :: rest =>
      if String_includes file ".DS_Store" then dropCollection_loop rest
      else unlink (join_path file) ;;; dropCollection_loop rest
  end.

(** [dropCollection()], lines 209-227. *)
Definition dropCollection : IO bool :=
  fun w =>
    match NODE_ENV w with
    | Some "production" =>
        throw (Error "Cannot drop collection in production environment" None) w
    | _ =>
        (try (files <- readdir ;;
              dropCollection_loop files ;;;
              ret true)
         catch (fun error =>
                  throw (Error "Error dropping collection" (Some error)))) w
    end.

End Guarded.

(** The edition of part_000 lines 291-616, the one with the doc comments. *)
Module Documented.

(** [findByIdAndUpdate(id, update: Partial<Omit<T, 'id'>>)], lines 439-458. *)
Definition findByIdAndUpdate (id : string) (update : obj) : IO value :=
  let filePath := json_path (VStr id) in
  try (existingData <- findOne (VStr id) ;;
       if ToBoolean existingData then
         updatedAt <- now ;;
         let updatedData :=
           <["updatedAt" := VStr updatedAt]> (update ∪ spread existingData) in
         writeFile filePath (JSON_stringify (VObj updatedData)) ;;;
         ret (VObj updatedData)
       else ret VNull)
  catch (fun error =>
           throw (Error "Error finding and updating document" (Some error))).

(** [findByIdAndDelete(id)], lines 500-514: it answers the deleted document
    or null. *)
Definition findByIdAndDelete (id : string) : IO value :=
  let filePath := json_path (VStr id) in
  try (existingData <- findOne (VStr id) ;;
       if ToBoolean existingData then
         unlink filePath ;;;
         ret existingData
       else ret VNull)
  catch (fun error =>
           throw (Error "Error finding and deleting document" (Some error))).

End Documented.

(** The oldest edition, src/src/model.ts. *)
Module Legacy.

(** [findOne(id)], lines 30-39: the handler throws. *)
Definition findOne (id : string) : IO value :=
  let filePath := json_path (VStr id) in
  try (data <- readFile filePath ;;
       lift (JSON_parse data))
  catch (fun error => throw (Error "Error finding document" (Some error))).

(** [insertOne(document)], lines 18-28: the document is written as it is and
    the id is returned. *)
Definition insertOne (document : obj) : IO value :=
  id <- (if ToBoolean (member (VObj document) "id")
         then ret (member (VObj document) "id")
         else fresh <- generateId ;; ret (VStr fresh)) ;;
  let filePath := json_path id in
  try (writeFile filePath (JSON_stringify (VObj document)) ;;;
       ret id)
  catch (fun error => throw (Error "Error inserting document" (Some error))).


(** The test [updateMany] and [find] make of one document, lines 64-70 and
    102-108: every key of the filter must be strictly equal. *)
Fixpoint matchesAll (document : value) (filter : ODFilter) : bool :=
  match filter with
  | [] => true
  | (key, expected) :: rest =>
      if negb (IsStrictlyEqual (get document key) expected) then false
      else matchesAll document rest
  end.

(** The loop of [updateMany]. *)
Fixpoint updateMany_loop (filter : ODFilter) (update : obj) (files : list string)
    : IO unit :=
  match files with
  | [] => ret tt
  | file :: rest =>
      let filePath := join_path file in
      data <- readFile filePath ;;
      document <- lift (JSON_parse data) ;;
      (if matchesAll document filter then
         let updatedDocument := update ∪ spread document in
         writeFile filePath (JSON_stringify (VObj updatedDocument))
       else ret tt) ;;;
      updateMany_loop filter update rest
  end.

(** [updateMany(filter, update)], lines 54-80. *)
Definition updateMany (filter : ODFilter) (update : obj) : IO unit :=
  files <- readdir ;;
  try updateMany_loop filter update files
  catch (fun error => throw (Error "Error updating documents" (Some error))).

(** [deleteOne(id)], lines 82-90. *)
Definition deleteOne (id : string) : IO unit :=
  let filePath := json_path (VStr id) in
  try unlink filePath
  catch (fun error => throw (Error "Error deleting document" (Some error))).

(** The loop of [find]. *)
Fixpoint find_loop (query : ODFilter) (files : list string) (results : list value)
    : IO (list value) :=
  match files with
  | [] => ret results
  | file :: rest =>
      data <- readFile (join_path file) ;;
      document <- lift (JSON_parse data) ;;
      if matchesAll document query then find_loop query rest (results ++ [document])
      else find_loop query rest results
  end.

(** [find(query)], lines 92-119. *)
Definition find (query : ODFilter) : IO (list value) :=
  files <- readdir ;;
  try find_loop query files []
  catch (fun error => throw (Error "Error finding documents" (Some error))).

End Legacy.

End ODModel.

(* ===================================================================== *)
(** ** ODDb: backup and retention *)
(* ===================================================================== *)

Module ODDb.
Import JS Fs.
Local Open Scope Z_scope.

(** *** Dates

    Local civil time, as the [Date] methods used by [backup] show it: a
    calendar day and the milliseconds elapsed in it. Time zone rules and
    daylight saving shifts are outside the model, so the time value of a
    date is taken on the local time line. *)

Definition msPerDay : Z := 86400000.

Definition DayFromYear (y : Z) : Z :=
  365 * (y - 1970) + (y - 1969) / 4 - (y - 1901) / 100 + (y - 1601) / 400.

Definition InLeapYear (y : Z) : bool :=
  ((y mod 4 =? 0) && negb (y mod 100 =? 0)) || (y mod 400 =? 0).

(** Days of the year before month [mn] (0 is January). *)
Definition DaysBeforeMonth (leap : bool) (mn : Z) : Z :=
  let l := if leap then 1 else 0 in
  match mn with
  | 0 => 0
  | 1 => 31
  | 2 => 59 + l
  | 3 => 90 + l
  | 4 => 120 + l
  | 5 => 151 + l
  | 6 => 181 + l
  | 7 => 212 + l
  | 8 => 243 + l
  | 9 => 273 + l
  | 10 => 304 + l
  | _ => 334 + l
  end.

(** [MakeDay(year, month, date)]: months beyond the year and days beyond
    the month carry over. *)
Definition MakeDay (year month date : Z) : Z :=
  let ym := year + month / 12 in
  let mn := month mod 12 in
  DayFromYear ym + DaysBeforeMonth (InLeapYear ym) mn + date - 1.

Definition TimeClip (t : Z) : option Z :=
  if Z.abs t <=? 8640000000000000 then Some t else None.

(** The time value of [new Date(year, month, date)]; [None] is an invalid
    date. *)
Definition new_Date (year month date : number) : option Z :=
  match year, month, date with
  | Num y, Num m, Num dt =>
      let yr := if (0 <=? y) && (y <=? 99) then 1900 + y else y in
      TimeClip (MakeDay yr m dt * msPerDay)
  | _, _, _ => None
  end.

(** What [new Date()] shows of the present moment. *)
Record Date := {
  getFullYear : Z;
  getMonth : Z;        (* 0 is January *)
  getDate : Z;
  timeInDay : Z;       (* milliseconds since local midnight *)
}.

Definition getTime (d : Date) : Z :=
  MakeDay (getFullYear d) (getMonth d) (getDate d) * msPerDay + timeInDay d.

(** date-fns [subDays(date, amount)]: the same time of day, [amount] days
    earlier. *)
Definition subDays (d : Date) (amount : Z) : option Z :=
  Some (getTime d - amount * msPerDay).

(** date-fns [isAfter(date, dateToCompare)] *)
Definition isAfter (date dateToCompare : option Z) : bool :=
  match date, dateToCompare with
  | Some a, Some b => b <? a
  | _, _ => false
  end.

Definition minus_one (n : number) : number :=
  match n with
  | NaN => NaN
  | Num z => Num (z - 1)
  end.

Definition number_eqb (n : number) (z : Z) : bool :=
  match n with
  | NaN => false
  | Num a => a =? z
  end.

(** *** Directory trees *)

Inductive node :=
| RegularFile (bytes : string)
| SymbolicLink (target : string)
| Folder (children : list (string * node)).

(** What [copyFile] leaves behind when it returns: a read stream piped into
    a write stream. Nothing is on the disk yet; the file at [path] (names
    from the directory the copy was made into) is created and filled with
    the bytes once the event loop runs the streams. *)
Definition pipe : Type := list string * string.

(** The two directories [backup] works on: [db] is the listing of
    [cwd/od-db] ([None] while it does not exist), [backups] the listing of
    [../od-db-backup] ([None] while it does not exist), and [piping] holds
    the streams that were started and have not run yet, with paths from the
    backup directory. *)
Record Disk := {
  db : option (list (string * node));
  backups : option (list (string * node));
  piping : list pipe;
}.

Definition with_backups (d : Disk) (l : list (string * node)) : Disk :=
  {| db := db d; backups := Some l; piping := piping d |}.

Fixpoint lookup_entry (name : string) (l : list (string * node)) : option node :=
  match l with
  | [] => None
  | (n, x) :: rest => if String.eqb n name then Some x else lookup_entry name rest
  end.

(** Create or replace the entry [name]; a new entry goes last. *)
Fixpoint put_entry (name : string) (x : node) (l : list (string * node))
    : list (string * node) :=
  match l with
  | [] => [(name, x)]
  | (n, y) :: rest =>
      if String.eqb n name then (n, x) :: rest else (n, y) :: put_entry name x rest
  end.

Definition remove_entry (name : string) (l : list (string * node))
    : list (string * node) :=
  List.filter (fun e => negb (String.eqb (fst e) name)) l.

Definition set_entry (name : string) (x : option node) (l : list (string * node))
    : list (string * node) :=
  match x with
  | Some n => put_entry name n l
  | None => remove_entry name l
  end.

(** [rmdir(dir)], part_001 lines 93-114, on the node found at [dir]; the
    second component is what is left at [dir] afterwards. [statSync]
    follows a symbolic link, and what it finds, like what [rmdir] then does
    behind the link, depends on the rest of the file system at that moment,
    which a tree does not hold: on a tree in which the walk meets a link the
    answer is [None], the run is not covered. The test of [filename] against
    [.] and [..] never holds, [filename] being a joined path. *)
Fixpoint rmdir (dir : node) : option (outcome unit * option node) :=
  match dir with
  | Folder entries =>
      match (fix loop (list_ : list (string * node))
               : option (outcome unit * list (string * node)) :=
               match list_ with
               | [] => Some (Ok tt, [])
               | (filename, child) :: rest =>
                   match child with
                   | RegularFile _ => loop rest
                   | SymbolicLink _ => None
                   | Folder _ =>
                       match rmdir child with
                       | None => None
                       | Some (Ok _, _) => loop rest
                       | Some (Throw e, remains) =>
                           Some (Throw e, match remains with
                                          | Some c => (filename, c) :: rest
                                          | None => rest
                                          end)
                       end
                   end
               end) entries with
      | None => None
      | Some (Ok _, _) => Some (Ok tt, None)
      | Some (Throw e, remaining) => Some (Throw e, Some (Folder remaining))
      end
  | RegularFile _ => Some (Throw ENOTDIR, Some dir)
  | SymbolicLink _ => None
  end.

(** [mkdir(dir)], lines 82-91: an existing path is left as it is. *)
Definition mkdir (dir : option node) : outcome unit * option node :=
  match dir with
  | None => (Ok tt, Some (Folder []))
  | Some existing => (Ok tt, Some existing)
  end.

(** [copyFile(source, destination)], lines 116-120: the two streams are
    created and piped, and the method returns. It never throws, and the
    destination is as it was; a failure of a stream is an event of a later
    turn of the event loop. [bytes] is what the source holds, [name] the
    entry the write stream is opened for. *)
Definition copyFile (bytes : string) (name : string) : pipe := ([name], bytes).

(** The path of a stream, seen from the directory above. *)
Definition under (name : string) (p : pipe) : pipe := (name :: fst p, snd p).

(** [fs.symlinkSync(target, path)] *)
Definition symlinkSync (target : string) (path : option node)
    : outcome unit * option node :=
  match path with
  | None => (Ok tt, Some (SymbolicLink target))
  | Some _ => (Throw EEXIST, path)
  end.

(** The loop of [copyDir], lines 125-135, when the destination is a
    regular file: a stream is started for each regular file, and the first
    directory ([mkdirSync]) or link ([symlinkSync]) fails. *)
Fixpoint copyDir_blocked (files : list (string * node)) (pipes : list pipe)
    : outcome unit * list pipe :=
  match files with
  | [] => (Ok tt, pipes)
  | (name, RegularFile bytes) :: rest =>
      copyDir_blocked rest (pipes ++ [copyFile bytes name])
  | _ :: _ => (Throw ENOTDIR, pipes)
  end.

(** [copyDir(source, destination)], lines 122-136. [source] is the node
    listed by [readdirSync], [destination] what is found at the destination
    path; the answer holds what is there afterwards and the streams that
    were started. Into a destination that is a regular file the streams are
    still started, and the first directory or link to copy fails. Where the
    source or the destination is a symbolic link the calls follow it out of
    the tree: the answer is [None], the run is not covered. *)
Fixpoint copyDir (source : node) (destination : option node)
    : option (outcome unit * option node * list pipe) :=
  match destination with
  | Some (SymbolicLink _) => None
  | _ =>
      let '(_, made) := mkdir destination in
      match source with
      | Folder files =>
          match made with
          | Some (Folder existing) =>
              match (fix loop (files : list (string * node))
                       (dst : list (string * node)) (pipes : list pipe)
                       {struct files}
                       : option (outcome unit * list (string * node) * list pipe) :=
                       match files with
                       | [] => Some (Ok tt, dst, pipes)
                       | (name, current) :: rest =>
                           match current with
                           | Folder _ =>
                               match copyDir current (lookup_entry name dst) with
                               | None => None
                               | Some (r, copied, inner) =>
                                   match r with
                                   | Ok _ =>
                                       loop rest (set_entry name copied dst)
                                         (pipes ++ map (under name) inner)
                                   | Throw e =>
                                       Some (Throw e, set_entry name copied dst,
                                             pipes ++ map (under name) inner)
                                   end
                               end
                           | SymbolicLink symlink =>
                               let '(r, copied) :=
                                 symlinkSync symlink (lookup_entry name dst) in
                               match r with
                               | Ok _ => loop rest (set_entry name copied dst) pipes
                               | Throw e =>
                                   Some (Throw e, set_entry name copied dst, pipes)
                               end
                           | RegularFile bytes =>
                               loop rest dst (pipes ++ [copyFile bytes name])
                           end
                       end) files existing [] with
              | None => None
              | Some (r, written, pipes) => Some (r, Some (Folder written), pipes)
              end
          | other =>
              let '(r, pipes) := copyDir_blocked files [] in
              Some (r, other, pipes)
          end
      | RegularFile _ => Some (Throw ENOTDIR, made, [])
      | SymbolicLink _ => None
      end
  end.

Definition backupDaysLimit : Z := 30.

(** [new Date(dirYear, dirMonth - 1, dirDay)] for a directory name, lines
    49-53. *)
Definition dirDate (dir : string) : option Z :=
  let nameArray := split "-" dir in
  let dirYear := Number (nameArray !! 0%nat) in
  let dirMonth := Number (nameArray !! 1%nat) in
  let dirDay := Number (nameArray !! 2%nat) in
  new_Date dirYear (minus_one dirMonth) dirDay.

(** The test of the second filter, lines 68-74. *)
Definition isTodayBackup (year month day : Z) (dir : string) : bool :=
  let nameArray := split "-" dir in
  let dirYear := Number (nameArray !! 0%nat) in
  let dirMonth := Number (nameArray !! 1%nat) in
  let dirDay := Number (nameArray !! 2%nat) in
  number_eqb dirYear year && number_eqb dirMonth month && number_eqb dirDay day.

(** [oldBackups.forEach((dir) => this.rmdir(path.join(backupPath, dir)))] on
    the listing of the backup directory. *)
Fixpoint removeOld (oldBackups : list string) (root : list (string * node))
    : option (outcome unit * list (string * node)) :=
  match oldBackups with
  | [] => Some (Ok tt, root)
  | dir :: rest =>
      match lookup_entry dir root with
      | None => removeOld rest root
      | Some found =>
          match rmdir found with
          | None => None
          | Some (Ok _, remains) => removeOld rest (set_entry dir remains root)
          | Some (Throw e, remains) => Some (Throw e, set_entry dir remains root)
          end
      end
  end.

(** The name of the new snapshot, line 76. *)
Definition newDirName (year month day : Z) (todayBackups : list string) : string :=
  NumberToString (Num year) +:+ "-" +:+ NumberToString (Num month) +:+ "-"
  +:+ NumberToString (Num day) +:+ "-"
  +:+ NumberToString (Num (Z.of_nat (length todayBackups) + 1)).

(** [backup()], lines 31-80, with [today] the value of [new Date()]. The
    answer is [None] where [rmdir] or [copyDir] is not covered. The names
    of the backup directory are read with [Number] as [JS] has it, which
    follows the code on components written in decimal digits, as those of
    a snapshot name are; other numerals (a fraction, an exponent, a radix
    prefix, white space around) are not covered. *)
Definition backup (today : Date) (d : Disk) : option (outcome unit * Disk) :=
  let root := match backups d with
              | Some l => l
              | None => []
              end in
  let backupDir := map fst root in
  let latestBackupDate := subDays today backupDaysLimit in
  let oldBackups :=
    List.filter (fun dir => isAfter latestBackupDate (dirDate dir)) backupDir in
  match removeOld oldBackups root with
  | None => None
  | Some (Throw e, pruned) => Some (Throw e, with_backups d pruned)
  | Some (Ok _, pruned) =>
      let year := getFullYear today in
      let month := getMonth today + 1 in
      let day := getDate today in
      let todayBackups := List.filter (isTodayBackup year month day) backupDir in
      let name := newDirName year month day todayBackups in
      match db d with
      | Some files =>
          match copyDir (Folder files) (lookup_entry name pruned) with
          | None => None
          | Some (r, snapshot, pipes) =>
              Some (r, {| db := db d;
                          backups := Some (set_entry name snapshot pruned);
                          piping := piping d ++ map (under name) pipes |})
          end
      | None =>
          let '(_, made) := mkdir (lookup_entry name pruned) in
          Some (Throw ENOENT, with_backups d (set_entry name made pruned))
      end
  end.

End ODDb.

(* ===================================================================== *)
(** ** Vocabulary of the statements *)
(* ===================================================================== *)

Module Terms.
Import JS Lodash Fs ODModel.

(** The files a bulk method looks at: every entry of the listing whose name
    does not contain [.DS_Store]. *)
Definition scanned (name : string) : bool :=
  negb (String_includes name ".DS_Store").

(** The document a scan reads from the file [name], when there is one. *)
Definition document_at (fs : gmap string entry) (name : string) : option value :=
  if scanned name then
    match fs !! name with
    | Some (File (Parses v)) => Some v
    | _ => None
    end
  else None.

(** The documents of the collection, in the order of the listing. *)
Definition documents (fs : gmap string entry) : list value :=
  omap (document_at fs) (map_to_list fs).*1.

(** An entry on which a read or a parse fails. *)
Definition unreadable (e : entry) : Prop :=
  e = Directory \/ e = File Garbled.

(** Every scanned file holds a document on which [query] can be evaluated:
    no read, parse or evaluation fails during a scan. *)
Definition scannable (query : ODFilter) (fs : gmap string entry) : bool :=
  forallb (fun '(name, e) =>
             negb (scanned name)
             || match e with
                | File (Parses v) =>
                    match matchesFilter v query with
                    | Ok _ => true
                    | Throw _ => false
                    end
                | _ => false
                end)
          (map_to_list fs).

(** Does [query] select the document held by entry [e] of the file [name]? *)
Definition selects (query : ODFilter) (name : string) (e : option entry) : bool :=
  scanned name
  && match e with
     | Some (File (Parses v)) =>
         match matchesFilter v query with
         | Ok true => true
         | _ => false
         end
     | _ => false
     end.


(** What [findMany] keeps of the file [name]. *)
Definition kept (query : option ODFilter) (fs : gmap string entry)
    (name : string) : option value :=
  match document_at fs name with
  | Some v =>
      match query with
      | None => Some v
      | Some q => match matchesFilter v q with
                  | Ok true => Some v
                  | _ => None
                  end
      end
  | None => None
  end.

(** What [findOne(id)] yields in the two editions of part_000. *)
Definition found (id : value) (fs : gmap string entry) : value :=
  if ToBoolean id then
    match fs !! json_path id with
    | Some (File (Parses v)) => v
    | _ => VNull
    end
  else VNull.

(** The id [insertOne] gives a document: its own when that is truthy, the
    next one of the generator otherwise. *)
Definition assigned_id (document : obj) (w : World) : value :=
  if ToBoolean (member (VObj document) "id")
  then member (VObj document) "id"
  else VStr (nanoid w (ids_drawn w)).

(** A document extended with [id], [createdAt] and [updatedAt]. *)
Definition stamped (document : obj) (id : value) (createdAt updatedAt : string)
    : obj :=
  <["updatedAt" := VStr updatedAt]>
    (<["createdAt" := VStr createdAt]> (<["id" := id]> document)).

(** The file name [insertOne] writes to. *)
Definition target (fileName : option string) (id : value) : string :=
  match fileName with
  | Some name => if ToBoolean (VStr name) then json_path (VStr name)
                 else json_path id
  | None => json_path id
  end.

(** The world [w] with other files, [ids] ids drawn and [reads] readings of
    the clock. *)
Definition advanced (w : World) (fs : gmap string entry) (ids reads : nat)
    : World :=
  {| files := fs; NODE_ENV := NODE_ENV w;
     nanoid := nanoid w; ids_drawn := ids;
     clock := clock w; clock_reads := reads |}.

(** What the edition of lines 111-130 writes: the update, the id of the
    record found, a new [updatedAt]. *)
Definition replaced (update : obj) (existing : value) (updatedAt : string) : obj :=
  <["updatedAt" := VStr updatedAt]> (<["id" := member existing "id"]> update).

(** What the edition of lines 439-458 writes: the update over the fields of
    the record found, a new [updatedAt]. *)
Definition merged (update : obj) (existing : value) (updatedAt : string) : obj :=
  <["updatedAt" := VStr updatedAt]> (update ∪ spread existing).

(** The operators that compare by order. *)
Definition ordering_operator (op : string) : Prop :=
  op = "$gt" \/ op = "$gte" \/ op = "$lt" \/ op = "$lte".

End Terms.

Module BackupTerms.
Import JS Fs ODDb.
Local Open Scope Z_scope.

(** The entries of the backup directory ([] while it does not exist). *)
Definition listing (d : Disk) : list (string * node) :=
  match backups d with
  | Some l => l
  | None => []
  end.

Definition names (l : list (string * node)) : list string := map fst l.

Definition is_folder (n : node) : bool :=
  match n with
  | Folder _ => true
  | _ => false
  end.

(** The day number of the calendar day of [today]. *)
Definition day_of (today : Date) : Z :=
  MakeDay (getFullYear today) (getMonth today) (getDate today).

(** The test of the first filter of [backup], lines 48-56, at the moment
    [today]. *)
Definition expired (today : Date) (dir : string) : bool :=
  match dirDate dir with
  | Some t => t <? getTime today - 30 * msPerDay
  | None => false
  end.

(** The test of the second filter of [backup], lines 68-74, on the day of
    [today]. *)
Definition encodes (today : Date) (dir : string) : bool :=
  isTodayBackup (getFullYear today) (getMonth today + 1) (getDate today) dir.

(** [{year}-{month}-{day}-{sequence}] for the day of [today]. *)
Definition snapshot_name (today : Date) (sequence : nat) : string :=
  NumberToString (Num (getFullYear today)) +:+ "-"
  +:+ NumberToString (Num (getMonth today + 1)) +:+ "-"
  +:+ NumberToString (Num (getDate today)) +:+ "-"
  +:+ NumberToString (Num (Z.of_nat sequence)).

(** The number of entries the second filter lets through. *)
Definition taken_today (today : Date) (l : list (string * node)) : nat :=
  length (List.filter (encodes today) (names l)).

(** [name] is one of [olds]. *)
Definition among (olds : list string) (name : string) : bool :=
  existsb (String.eqb name) olds.

(** A reading of the clock: a calendar date of year 100 or later and a time
    within the day. *)
Definition plausible (today : Date) : Prop :=
  100 <= getFullYear today
  /\ 0 <= getMonth today <= 11
  /\ 1 <= getDate today <= 31
  /\ 0 <= timeInDay today < msPerDay.

Definition same_day (a b : Date) : Prop :=
  getFullYear a = getFullYear b /\ getMonth a = getMonth b
  /\ getDate a = getDate b.

(** *** Snapshots, told by their date rather than by their name *)

(** A date that a snapshot name can carry: a year from 100 to 9999, a month
    from January (0) to December (11), a day from 1 to 31. *)
Definition calendar (date : Date) : Prop :=
  100 <= getFullYear date <= 9999
  /\ 0 <= getMonth date <= 11
  /\ 1 <= getDate date <= 31.

(** A snapshot as the spec has it: the day it was taken, its sequence
    number that day, and the tree it holds. *)
Record Snapshot := {
  taken : Date;
  sequence : nat;
  tree : node;
}.

(** The entry of the backup directory that holds the snapshot. *)
Definition named (s : Snapshot) : string * node :=
  (snapshot_name (taken s) (sequence s), tree s).

(** The age in days, by the calendar, of a snapshot taken on [date]. *)
Definition age (today date : Date) : Z := day_of today - day_of date.

(** Older than the retention window at the moment [today]: taken more than
    30 days ago by the calendar, or exactly 30 days ago when the clock of
    [today] is past midnight. *)
Definition outdated (today date : Date) : bool :=
  (30 <? age today date)
  || ((age today date =? 30) && (0 <? timeInDay today)).

(** Taken on the calendar day of [today]. *)
Definition of_the_day (today date : Date) : bool :=
  (getFullYear date =? getFullYear today)
  && (getMonth date =? getMonth today)
  && (getDate date =? getDate today).

(** The snapshots that are left after the sweep at the moment [today]. *)
Definition retained (today : Date) (snapshots : list Snapshot) : list Snapshot :=
  List.filter (fun s => negb (outdated today (taken s))) snapshots.

(** The sequence number of the next snapshot of the day of [today]. *)
Definition next_sequence (today : Date) (snapshots : list Snapshot) : nat :=
  S (length (List.filter (fun s => of_the_day today (taken s)) snapshots)).

(** *** Trees *)

(** The loop of [rmdir], lines 96-109, over the listing of a directory. *)
Fixpoint rmdir_loop (list_ : list (string * node))
    : option (outcome unit * list (string * node)) :=
  match list_ with
  | [] => Some (Ok tt, [])
  | (filename, child) :: rest =>
      match child with
      | RegularFile _ => rmdir_loop rest
      | SymbolicLink _ => None
      | Folder _ =>
          match rmdir child with
          | None => None
          | Some (Ok _, _) => rmdir_loop rest
          | Some (Throw e, remains) =>
              Some (Throw e, match remains with
                             | Some c => (filename, c) :: rest
                             | None => rest
                             end)
          end
      end
  end.

(** The loop of [copyDir], lines 125-135, over the listing of the source,
    with [dst] the listing of the destination and [pipes] the streams
    started so far. *)
Fixpoint copyDir_loop (files : list (string * node)) (dst : list (string * node))
    (pipes : list pipe) {struct files}
    : option (outcome unit * list (string * node) * list pipe) :=
  match files with
  | [] => Some (Ok tt, dst, pipes)
  | (name, current) :: rest =>
      match current with
      | Folder _ =>
          match copyDir current (lookup_entry name dst) with
          | None => None
          | Some (r, copied, inner) =>
              match r with
              | Ok _ =>
                  copyDir_loop rest (set_entry name copied dst)
                    (pipes ++ map (under name) inner)
              | Throw e =>
                  Some (Throw e, set_entry name copied dst,
                        pipes ++ map (under name) inner)
              end
          end
      | SymbolicLink symlink =>
          let '(r, copied) := symlinkSync symlink (lookup_entry name dst) in
          match r with
          | Ok _ => copyDir_loop rest (set_entry name copied dst) pipes
          | Throw e => Some (Throw e, set_entry name copied dst, pipes)
          end
      | RegularFile bytes =>
          copyDir_loop rest dst (pipes ++ [copyFile bytes name])
      end
  end.

(** No symbolic link anywhere in the tree. *)
Fixpoint link_free (n : node) : bool :=
  match n with
  | RegularFile _ => true
  | SymbolicLink _ => false
  | Folder children => forallb (fun e => link_free (snd e)) children
  end.

(** A snapshot that [rmdir] removes: a directory without links. *)
Definition removable (n : node) : bool := is_folder n && link_free n.

Fixpoint distinct (l : list string) : bool :=
  match l with
  | [] => true
  | x :: rest => negb (existsb (String.eqb x) rest) && distinct rest
  end.

(** The names of every directory of the tree are listed once each, as
    [readdirSync] lists them. *)
Fixpoint well_listed (n : node) : bool :=
  match n with
  | Folder children =>
      distinct (names children)
      && forallb (fun e => well_listed (snd e)) children
  | _ => true
  end.

Section Entries.
Variable skeleton : node -> node.
Variable streams_of : node -> list pipe.

(** The directories and the links of a listing, without its regular
    files. *)
Fixpoint skeleton_entries (l : list (string * node)) : list (string * node) :=
  match l with
  | [] => []
  | (name, c) :: rest =>
      match c with
      | RegularFile _ => skeleton_entries rest
      | _ => (name, skeleton c) :: skeleton_entries rest
      end
  end.

(** One stream for each regular file under a listing. *)
Fixpoint streams_entries (l : list (string * node)) : list pipe :=
  match l with
  | [] => []
  | (name, c) :: rest =>
      match c with
      | RegularFile bytes => [copyFile bytes name]
      | SymbolicLink _ => []
      | Folder _ => map (under name) (streams_of c)
      end ++ streams_entries rest
  end.

End Entries.

(** The directories and the links of a tree, without its regular files. *)
Fixpoint skeleton (n : node) : node :=
  match n with
  | Folder children =>
      Folder ((fix entries (l : list (string * node)) : list (string * node) :=
                 match l with
                 | [] => []
                 | (name, c) :: rest =>
                     match c with
                     | RegularFile _ => entries rest
                     | _ => (name, skeleton c) :: entries rest
                     end
                 end) children)
  | _ => n
  end.

(** One stream for each regular file of the tree, with the path of the file
    in the tree and its bytes, in the order of the listings. *)
Fixpoint streams_of (n : node) : list pipe :=
  match n with
  | Folder children =>
      (fix entries (l : list (string * node)) : list pipe :=
         match l with
         | [] => []
         | (name, c) :: rest =>
             match c with
             | RegularFile bytes => [copyFile bytes name]
             | SymbolicLink _ => []
             | Folder _ => map (under name) (streams_of c)
             end ++ entries rest
         end) children
  | _ => []
  end.

End BackupTerms.

(* ===================================================================== *)
(** ** Sample collections and disks *)
(* ===================================================================== *)

Module Examples.
Import JS Lodash Fs ODModel ODDb.

(** Stand-ins for [nanoid()] and for the clock. *)
Definition ids (n : nat) : string :=
  "V1StGXR8_Z5jdHi6B-myT" +:+ NilZero.string_of_uint (Nat.to_uint n).

Definition ticks (n : nat) : string :=
  "2024-03-15T10:00:00.00" +:+ NilZero.string_of_uint (Nat.to_uint n) +:+ "Z".

Definition world (fs : gmap string entry) (env : option string) : World :=
  {| files := fs; NODE_ENV := env;
     nanoid := ids; ids_drawn := 0; clock := ticks; clock_reads := 0 |}.

Definition alice : obj :=
  <["id" := VStr "a"]> (<["age" := VNum (Num 30)]> {[ "name" := VStr "A" ]}).

Definition bob : obj :=
  <["id" := VStr "b"]> (<["age" := VNum (Num 25)]> {[ "name" := VStr "B" ]}).

(** Two documents and a Finder artifact. *)
Definition people : gmap string entry :=
  <["a.json" := File (Parses (VObj alice))]>
    (<["b.json" := File (Parses (VObj bob))]>
       {[ ".DS_Store" := File Garbled ]}).

(** The same with a file that does not parse. *)
Definition damaged : gmap string entry :=
  <["c.json" := File Garbled]> people.

Definition older_than_26 : ODFilter :=
  [("age", VObj {[ "$gt" := VNum (Num 26) ]})].

Definition birthday : obj := {[ "age" := VNum (Num 31) ]}.


(** A document to insert, without an id, and one whose id is the empty
    string. *)
Definition carol : obj :=
  <["name" := VStr "C"]> {[ "age" := VNum (Num 41) ]}.

Definition blank_id : obj := <["id" := VStr ""]> {[ "name" := VStr "D" ]}.

(** A document without the field [age]. *)
Definition ageless : value := VObj {[ "name" := VStr "A" ]}.

Definition snapshot : node :=
  Folder [("users", Folder [("a.json", RegularFile "{}")])].

(** 15 March 2024, ten in the morning. *)
Definition ides_of_march : Date :=
  {| getFullYear := 2024; getMonth := 2; getDate := 15; timeInDay := 36000000 |}.


(** Snapshots taken 40, 31, 29 and 1 days before 15 March 2024. *)
Definition four_snapshots : Disk :=
  {| db := Some [("users", Folder [("a.json", RegularFile "{}")])];
     backups := Some [("2024-2-4-1", snapshot); ("2024-2-13-1", snapshot);
                      ("2024-2-15-1", snapshot); ("2024-3-14-1", snapshot)];
     piping := [] |}.

End Examples.


(* ===================================================================== *)
(** ** Further vocabulary: filters, collections, trees *)
(* ===================================================================== *)

Module FilterTerms.
Import JS Lodash Fs ODModel Terms.

(** The operator names [matchesFilter] looks for in an object-valued filter
    entry. *)
Definition operators : list string :=
  ["$eq"; "$ne"; "$gt"; "$gte"; "$lt"; "$lte"; "$in"; "$nin"; "$exists"].

(** An array, or an object that has none of the operator names. *)
Definition operator_free (filterValue : value) : bool :=
  isObject filterValue
  && forallb (fun op => negb (has filterValue op)) operators.


(** A value that has no [includes] method: neither an array nor a string. *)
Definition no_includes (operand : value) : bool :=
  match operand with
  | VArr _ | VStr _ => false
  | _ => true
  end.

(** The entries of the listing that the scans skip. *)
Definition artifacts (fs : gmap string entry) : list string :=
  List.filter (fun name => negb (scanned name)) (map_to_list fs).*1.

(** No scanned entry is a directory: [unlink] succeeds on each. *)
Definition droppable (fs : gmap string entry) : bool :=
  forallb (fun '(name, e) =>
             negb (scanned name)
             || match e with
                | File _ => true
                | Directory => false
                end)
          (map_to_list fs).

(** A name that [path.join] leaves as it is and that names one entry of
    the collection directory: it holds no slash, no backslash and no null
    character. *)
Definition plain (name : string) : bool :=
  forallb (fun c => negb (Ascii.eqb c "/") && negb (Ascii.eqb c "\")
                    && negb (Ascii.eqb c Ascii.zero))
          (list_ascii_of_string name).

(** The names [insertOne] builds its path from are plain. *)
Definition plain_target (fileName : option string) (id : value) : bool :=
  plain (ToString id)
  && match fileName with
     | Some name => plain name
     | None => true
     end.

(** Every value of the filter is a primitive: a literal to compare with. *)
Definition literal_filter (query : ODFilter) : bool :=
  forallb (fun '(_, expected) => negb (isObject expected)) query.

End FilterTerms.

Module MoreExamples.
Import JS Lodash Fs ODModel ODDb BackupTerms Examples.

(** The two documents without the Finder artifact. *)
Definition pair : gmap string entry :=
  <["a.json" := File (Parses (VObj alice))]>
    {[ "b.json" := File (Parses (VObj bob)) ]}.

(** A collection in which the name [d.json] is taken by a directory. *)
Definition crowded : gmap string entry :=
  <["d.json" := Directory]> people.

Definition dave : obj :=
  <["id" := VStr "d"]> {[ "name" := VStr "D" ]}.

(** A filter of literals. *)
Definition named_B : ODFilter := [("name", VStr "B")].

(** A store with a file, a link and a nested directory. *)
Definition store : list (string * node) :=
  [("users", Folder [("a.json", RegularFile "{}");
                     ("latest", SymbolicLink "a.json")]);
   ("config.json", RegularFile "{}")].

(** The snapshots of [four_snapshots], told by their dates: taken 40, 31,
    29 and 1 days before 15 March 2024. *)
Definition at_day (year month day : Z) (n : nat) (t : node) : Snapshot :=
  {| taken := {| getFullYear := year; getMonth := month; getDate := day;
                 timeInDay := 0 |};
     sequence := n; tree := t |}.

Definition the_four : list Snapshot :=
  [at_day 2024 1 4 1 snapshot; at_day 2024 1 13 1 snapshot;
   at_day 2024 1 15 1 snapshot; at_day 2024 2 14 1 snapshot].




(** The four snapshots beside a store with a link. *)
Definition with_store : Disk :=
  {| db := Some store; backups := backups four_snapshots; piping := [] |}.

(** The four snapshots, and no store to copy. *)
Definition no_store : Disk :=
  {| db := None; backups := backups four_snapshots; piping := [] |}.

End MoreExamples.


(* ===================================================================== *)
(** ** Properties of the filter evaluator *)
(* ===================================================================== *)

Module FilterFacts.
Import JS Lodash Fs ODModel Terms.

(** No order comparison holds when the left operand is undefined. *)
Lemma IsLessThan_undefined_l (y : value) : IsLessThan VUndefined y = None.
Proof.
  unfold IsLessThan. simpl.
  destruct (ToPrimitive y); try reflexivity;
    destruct (ToNumber _); reflexivity.
Qed.

Lemma IsLessThan_undefined_r (x : value) : IsLessThan x VUndefined = None.
Proof.
  unfold IsLessThan. simpl.
  destruct (ToPrimitive x) eqn:E; simpl; try reflexivity;
    destruct (ToNumber _); reflexivity.
Qed.

Lemma compare_undefined (y : value) :
  le VUndefined y = false /\ lt VUndefined y = false
  /\ ge VUndefined y = false /\ gt VUndefined y = false.
Proof.
  unfold le, lt, ge, gt.
  rewrite IsLessThan_undefined_l, IsLessThan_undefined_r. auto.
Qed.

(** An operator object that holds one ordering operator lets an undefined
    document value through: each guard of the source tests the negated
    comparison, and that is false as well. *)
Lemma matchesField_ordering_undefined (op : string) (operand : value) :
  ordering_operator op ->
  matchesField VUndefined (VObj {[ op := operand ]}) = Ok true.
Proof.
  destruct (compare_undefined operand) as (Hle & Hlt & Hge & Hgt).
  intros [-> | [-> | [-> | ->]]]; unfold matchesField, has, member; simpl;
    rewrite ?lookup_singleton_eq; simpl;
    rewrite ?Hle, ?Hlt, ?Hge, ?Hgt; reflexivity.
Qed.

Lemma matchesFilter_ordering_undefined (document : value) (key op : string)
    (operand : value) :
  ordering_operator op ->
  get document key = VUndefined ->
  matchesFilter document [(key, VObj {[ op := operand ]})] = Ok true.
Proof.
  intros Hop Hget. simpl. rewrite Hget.
  rewrite (matchesField_ordering_undefined op operand Hop). reflexivity.
Qed.

End FilterFacts.

(* ===================================================================== *)
(** ** Properties of the scans *)
(* ===================================================================== *)

Module ScanFacts.
Import JS Lodash Fs ODModel Terms.
Local Open Scope io_scope.

Lemma with_files_id (w : World) : with_files w (files w) = w.
Proof. destruct w; reflexivity. Qed.

Lemma scanned_false (name : string) :
  String_includes name ".DS_Store" = true -> scanned name = false.
Proof. unfold scanned. intros ->. reflexivity. Qed.

Lemma scanned_true (name : string) :
  String_includes name ".DS_Store" = false -> scanned name = true.
Proof. unfold scanned. intros ->. reflexivity. Qed.

(** The names [readdir] lists are those of the entries, each once. *)
Lemma readdir_NoDup (fs : gmap string entry) : NoDup (map_to_list fs).*1.
Proof. apply NoDup_fst_map_to_list. Qed.

Lemma readdir_elem (fs : gmap string entry) (name : string) :
  name ∈ (map_to_list fs).*1 <-> is_Some (fs !! name).
Proof.
  rewrite list_elem_of_fmap. split.
  - intros [[n e] [-> He]]. apply elem_of_map_to_list in He. simpl. eauto.
  - intros [e He]. exists (name, e). split; [reflexivity|].
    by apply elem_of_map_to_list.
Qed.

(** When every scanned file of the listing can be read, parsed and
    evaluated, the loop appends what the query keeps of each. *)
Lemma findMany_loop_ok (query : option ODFilter) (names : list string) :
  forall results w,
    (forall name, name ∈ names -> scanned name = true ->
       exists v b, files w !! name = Some (File (Parses v))
                   /\ match query with
                      | Some q => matchesFilter v q = Ok b
                      | None => True
                      end) ->
    findMany_loop query names results w
    = (Ok (results ++ omap (kept query (files w)) names), w).
Proof.
  induction names as [|name rest IH]; intros results w Hall; simpl.
  - by rewrite app_nil_r.
  - assert (Hrest : forall n, n ∈ rest -> scanned n = true ->
              exists v b, files w !! n = Some (File (Parses v))
                          /\ match query with
                             | Some q => matchesFilter v q = Ok b
                             | None => True
                             end).
    { intros n Hn. apply Hall. apply elem_of_cons. by right. }
    unfold kept at 1, document_at.
    destruct (String_includes name ".DS_Store") eqn:Hds.
    + rewrite (scanned_false _ Hds). by apply IH.
    + rewrite (scanned_true _ Hds).
      destruct (Hall name (proj2 (elem_of_cons _ _ _) (or_introl eq_refl))
                       (scanned_true _ Hds))
        as (v & b & Hv & Hb).
      unfold bind, readFile, join_path, lift. rewrite Hv. simpl.
      destruct query as [q|].
      * rewrite Hb. destruct b; simpl.
        -- rewrite IH by done. by rewrite <- app_assoc.
        -- by apply IH.
      * rewrite IH by done. by rewrite <- app_assoc.
Qed.

(** A scanned file that cannot be read or parsed makes the loop throw. *)
Lemma findMany_loop_throws (query : option ODFilter) (names : list string) :
  forall results w name e,
    name ∈ names -> scanned name = true ->
    files w !! name = Some e -> unreadable e ->
    exists err, findMany_loop query names results w = (Throw err, w).
Proof.
  induction names as [|n rest IH]; intros results w name e Hin Hsc He Hbad.
  - by apply elem_of_nil in Hin.
  - destruct (decide (n = name)) as [->|Hne].
    + simpl. unfold scanned in Hsc. apply negb_true_iff in Hsc. rewrite Hsc.
      unfold bind, readFile, join_path, lift. rewrite He.
      destruct Hbad as [-> | ->]; simpl; eauto.
    + apply elem_of_cons in Hin as [Heq|Hin]; [congruence|].
      simpl. destruct (String_includes n ".DS_Store").
      { by eapply IH. }
      unfold bind, readFile, join_path, lift.
      destruct (files w !! n) as [[[v|]|]|]; simpl; eauto.
      destruct query as [q|].
      * destruct (matchesFilter v q) as [[|]|]; simpl; eauto;
          by eapply IH.
      * by eapply IH.
Qed.

End ScanFacts.

Module BulkFacts.
Import JS Lodash Fs ODModel Terms ScanFacts.
Local Open Scope io_scope.

Lemma omap_agree {A B} (f g : A -> option B) (l : list A) :
  (forall x, x ∈ l -> f x = g x) -> omap f l = omap g l.
Proof.
  induction l as [|a l IH]; intros H; simpl; [reflexivity|].
  rewrite (H a) by (apply elem_of_cons; by left).
  assert (Htail : omap f l = omap g l).
  { apply IH. intros x Hx. apply H, elem_of_cons. by right. }
  destruct (g a); [f_equal|]; exact Htail.
Qed.


Lemma selects_unscanned (query : ODFilter) (name : string) (e : option entry) :
  scanned name = false -> selects query name e = false.
Proof. unfold selects. by intros ->. Qed.



(** The loop of [findManyAndDelete] over names listed once each: the
    selected files are gone, the others are as they were. *)
Lemma findManyAndDelete_loop_ok (query : ODFilter) (w : World)
    (names : list string) :
  forall fs,
    NoDup names ->
    (forall name, name ∈ names -> scanned name = true ->
       exists v b, fs !! name = Some (File (Parses v))
                   /\ matchesFilter v query = Ok b) ->
    exists fs',
      findManyAndDelete_loop query names (with_files w fs)
      = (Ok tt, with_files w fs')
      /\ forall n, fs' !! n = if decide (n ∈ names)
                              then (if selects query n (fs !! n)
                                    then None else fs !! n)
                              else fs !! n.
Proof.
  induction names as [|name rest IH]; intros fs Hnd Hall.
  - exists fs. simpl. split; [reflexivity|].
    intros n. destruct (decide (n ∈ [])) as [H|_]; [|reflexivity].
    by apply elem_of_nil in H.
  - apply NoDup_cons in Hnd as [Hfresh Hnd].
    assert (Hhere : name ∈ name :: rest) by (apply elem_of_cons; by left).
    simpl. destruct (String_includes name ".DS_Store") eqn:Hds.
    + destruct (IH fs Hnd) as (fs' & Hrun & Hfs').
      { intros n Hn. apply Hall, elem_of_cons. by right. }
      exists fs'. split; [exact Hrun|].
      intros n. rewrite Hfs'.
      destruct (decide (n = name)) as [->|Hne].
      * rewrite (decide_False (P := name ∈ rest)) by done.
        rewrite (decide_True (P := name ∈ name :: rest)) by done.
        by rewrite selects_unscanned by by apply scanned_false.
      * destruct (decide (n ∈ rest)) as [Hin|Hin].
        -- rewrite decide_True; [done|]. apply elem_of_cons. by right.
        -- rewrite decide_False; [done|].
           intros [?|?]%elem_of_cons; done.
    + pose proof (scanned_true _ Hds) as Hsc.
      destruct (Hall name Hhere Hsc) as (v & b & Hv & Hb).
      set (fs1 := if b then delete name fs else fs).
      assert (Hother : forall n, n <> name -> fs1 !! n = fs !! n).
      { intros n Hne. subst fs1. destruct b; [|done].
        by rewrite lookup_delete_ne. }
      destruct (IH fs1 Hnd) as (fs' & Hrun & Hfs').
      { intros n Hn Hscn. rewrite Hother by (intros ->; done).
        apply Hall; [|done]. apply elem_of_cons. by right. }
      exists fs'. split.
      * unfold bind at 1, readFile, join_path. simpl. rewrite Hv. simpl.
        unfold bind at 1, lift. simpl. unfold bind at 1. rewrite Hb.
        unfold bind at 1.
        replace ((if b then unlink name else ret ()) (with_files w fs))
          with (Ok (), with_files w fs1).
        2:{ subst fs1. destruct b; [|reflexivity].
            unfold unlink. simpl. by rewrite Hv. }
        exact Hrun.
      * intros n. rewrite Hfs'.
        destruct (decide (n = name)) as [->|Hne].
        -- rewrite (decide_False (P := name ∈ rest)) by done.
           rewrite (decide_True (P := name ∈ name :: rest)) by done.
           unfold selects. rewrite Hv, Hsc, Hb. subst fs1.
           destruct b; simpl; [by rewrite lookup_delete_eq|done].
        -- rewrite (Hother n Hne).
           destruct (decide (n ∈ rest)) as [Hin|Hin].
           ++ rewrite decide_True; [done|]. apply elem_of_cons. by right.
           ++ rewrite decide_False; [done|].
              intros [?|?]%elem_of_cons; done.
Qed.

End BulkFacts.

Module StoreFacts.
Import JS Lodash Fs ODModel Terms ScanFacts BulkFacts.
Local Open Scope io_scope.

Lemma scannable_spec (query : ODFilter) (fs : gmap string entry) :
  scannable query fs = true ->
  forall name e, fs !! name = Some e -> scanned name = true ->
    exists v b, e = File (Parses v) /\ matchesFilter v query = Ok b.
Proof.
  unfold scannable. rewrite forallb_forall. intros Hall name e He Hsc.
  specialize (Hall (name, e)). simpl in Hall. rewrite Hsc in Hall. simpl in Hall.
  assert (Hin : In (name, e) (map_to_list fs)).
  { apply list_elem_of_In. by apply elem_of_map_to_list. }
  specialize (Hall Hin).
  destruct e as [[v|]|]; try discriminate.
  destruct (matchesFilter v query) as [b|] eqn:Hb; [|discriminate].
  exists v, b. by split.
Qed.

Lemma scannable_listing (query : ODFilter) (fs : gmap string entry) :
  scannable query fs = true ->
  forall name, name ∈ (map_to_list fs).*1 -> scanned name = true ->
    exists v b, fs !! name = Some (File (Parses v))
                /\ matchesFilter v query = Ok b.
Proof.
  intros Hs name Hin Hsc. apply readdir_elem in Hin as [e He].
  destruct (scannable_spec _ _ Hs name e He Hsc) as (v & b & -> & Hb). eauto.
Qed.

(** The empty filter lets every document through. *)
Lemma matchesFilter_empty (document : value) : matchesFilter document [] = Ok true.
Proof. reflexivity. Qed.

Lemma kept_empty_filter (fs : gmap string entry) (name : string) :
  kept (Some []) fs name = document_at fs name.
Proof. unfold kept. by destruct (document_at fs name). Qed.

Lemma selects_empty_filter (name : string) (v : value) :
  selects [] name (Some (File (Parses v))) = scanned name.
Proof. unfold selects. simpl. by rewrite andb_true_r. Qed.

(** With the empty filter the loop of [findMany] does what it does without
    a filter, on every listing and in every world. *)
Lemma findMany_loop_empty_filter (names : list string) :
  forall results w,
    findMany_loop (Some []) names results w = findMany_loop None names results w.
Proof.
  induction names as [|name rest IH]; intros results w; simpl; [reflexivity|].
  destruct (String_includes name ".DS_Store"); [apply IH|].
  unfold bind, readFile, join_path, lift.
  destruct (files w !! name) as [[[v|]|]|]; simpl; try reflexivity. apply IH.
Qed.

(** [findMany] on a collection without unreadable files. *)
Lemma findMany_ok (query : ODFilter) (w : World) :
  scannable query (files w) = true ->
  findMany (Some query) w
  = (Ok (omap (kept (Some query) (files w)) (map_to_list (files w)).*1), w).
Proof.
  intros Hs. unfold findMany, bind at 1, readdir, try_catch.
  rewrite findMany_loop_ok; [reflexivity|].
  intros name Hin Hsc.
  destruct (scannable_listing _ _ Hs name Hin Hsc) as (v & b & Hv & Hb). eauto.
Qed.


(** [findManyAndDelete] on a collection without unreadable files. *)
Lemma findManyAndDelete_ok (query : ODFilter) (w : World) :
  scannable query (files w) = true ->
  exists fs',
    findManyAndDelete query w = (Ok true, with_files w fs')
    /\ forall name, fs' !! name = if selects query name (files w !! name)
                                  then None else files w !! name.
Proof.
  intros Hs.
  destruct (findManyAndDelete_loop_ok query w (map_to_list (files w)).*1
              (files w) (readdir_NoDup _) (scannable_listing _ _ Hs))
    as (fs' & Hrun & Hfs').
  exists fs'. split.
  - unfold findManyAndDelete, bind at 1, readdir, try_catch.
    rewrite with_files_id in Hrun. unfold bind at 1. rewrite Hrun. reflexivity.
  - intros name. rewrite Hfs'.
    destruct (decide (name ∈ (map_to_list (files w)).*1)) as [|Hout]; [done|].
    destruct (files w !! name) as [e|] eqn:He.
    + exfalso. apply Hout, readdir_elem. eauto.
    + by destruct (selects query name None).
Qed.

(** [findOne] in the two editions of part_000: total, and it never writes. *)
Lemma findOne_total (id : value) (w : World) :
  findOne id w = (Ok (found id (files w)), w).
Proof.
  unfold findOne, found. destruct (ToBoolean id); simpl; [|reflexivity].
  unfold try_catch, bind, readFile, lift, ret.
  by destruct (files w !! json_path id) as [[[v|]|]|].
Qed.

(** [findOne] in src/src/model.ts: a failure is thrown again. *)
Lemma legacy_findOne_run (id : string) (w : World) :
  Legacy.findOne id w
  = (match files w !! json_path (VStr id) with
     | Some (File (Parses v)) => Ok v
     | Some (File Garbled) =>
         Throw (Error "Error finding document" (Some SyntaxError))
     | Some Directory => Throw (Error "Error finding document" (Some EISDIR))
     | None => Throw (Error "Error finding document" (Some ENOENT))
     end, w).
Proof.
  unfold Legacy.findOne, try_catch, bind, readFile, lift, throw.
  by destruct (files w !! json_path (VStr id)) as [[[v|]|]|].
Qed.

(** [findMany] throws as soon as one scanned file cannot be read or parsed,
    and it has written nothing. *)
Lemma findMany_throws (query : option ODFilter) (w : World) (name : string)
    (e : entry) :
  files w !! name = Some e -> scanned name = true -> unreadable e ->
  exists err,
    findMany query w = (Throw (Error "Error finding documents" (Some err)), w).
Proof.
  intros He Hsc Hbad.
  destruct (findMany_loop_throws query (map_to_list (files w)).*1 [] w name e)
    as [err Herr]; try done.
  { apply readdir_elem. eauto. }
  exists err. unfold findMany, bind at 1, readdir, try_catch.
  by rewrite Herr.
Qed.

End StoreFacts.

(* ===================================================================== *)
(** ** The claims about the document store *)
(* ===================================================================== *)

Module StoreClaims.
Import JS Lodash Fs ODModel Terms Examples ScanFacts BulkFacts StoreFacts.
Local Open Scope io_scope.

(** Claim C1. The spec asks that [$gt], [$gte], [$lt] and [$lte] reject a
    document whose value at the path is the undefined sentinel. The source
    rejects on the negated comparison ([documentValue <= operand] for [$gt],
    and so on); against undefined the negated comparison is false as well, so
    the guard does not fire. Here the document [{name: "A"}] has no [age], and
    it matches [{age: {$gt: 29}}], [{age: {$gte: 29}}], [{age: {$lt: 29}}] and
    [{age: {$lte: 29}}]. *)
Theorem ordering_operators_let_an_absent_field_through :
  get ageless "age" = VUndefined
  /\ matchesFilter ageless [("age", VObj {[ "$gt" := VNum (Num 29) ]})] = Ok true
  /\ matchesFilter ageless [("age", VObj {[ "$gte" := VNum (Num 29) ]})] = Ok true
  /\ matchesFilter ageless [("age", VObj {[ "$lt" := VNum (Num 29) ]})] = Ok true
  /\ matchesFilter ageless [("age", VObj {[ "$lte" := VNum (Num 29) ]})] = Ok true.
Proof. repeat split; vm_compute; reflexivity. Qed.



(** Claim C7. With [NODE_ENV] set to [production], [dropCollection()]
    throws its refusal at once: the listing is not read, no file is
    unlinked, and the world is exactly the one it was called in. *)
Theorem dropCollection_refuses_in_production (w : World) :
  NODE_ENV w = Some "production" ->
  Guarded.dropCollection w
  = (Throw (Error "Cannot drop collection in production environment" None), w).
Proof. intros H. unfold Guarded.dropCollection. rewrite H. reflexivity. Qed.

Lemma dropCollection_refuses_on_people :
  Guarded.dropCollection (world people (Some "production"))
  = (Throw (Error "Cannot drop collection in production environment" None),
     world people (Some "production")).
Proof. apply dropCollection_refuses_in_production. reflexivity. Defined.

(** Claim C10. The empty filter matches every document, and [findMany({})]
    does in every world what [findMany()] does without a filter. So on a
    collection whose scanned files can all be read and parsed, [findMany({})]
    returns the document of every scanned file, and [findManyAndDelete({})]
    removes every scanned file and leaves the other entries alone. *)
Theorem empty_filter_selects_every_document :
  (forall document, matchesFilter document [] = Ok true)
  /\ (forall w, findMany (Some []) w = findMany None w)
  /\ (forall w, scannable [] (files w) = true ->
        findMany (Some []) w = (Ok (documents (files w)), w))
  /\ (forall w, scannable [] (files w) = true ->
        exists fs',
          findManyAndDelete [] w = (Ok true, with_files w fs')
          /\ forall name, fs' !! name = if scanned name then None
                                        else files w !! name).
Proof.
  split; [exact matchesFilter_empty|]. split; [|split].
  - intros w. unfold findMany, bind, readdir, try_catch.
    by rewrite findMany_loop_empty_filter.
  - intros w Hs. etrans; [exact (findMany_ok [] w Hs)|]. unfold documents.
    f_equal. f_equal. apply omap_agree. intros name _. apply kept_empty_filter.
  - intros w Hs. destruct (findManyAndDelete_ok [] w Hs) as (fs' & Hrun & Hfs').
    exists fs'. split; [exact Hrun|]. intros name. rewrite Hfs'.
    destruct (scanned name) eqn:Hsc.
    + destruct (files w !! name) as [e|] eqn:He.
      * destruct (scannable_spec _ _ Hs name e He Hsc) as (v & b & -> & _).
        by rewrite selects_empty_filter, Hsc.
      * by destruct (selects [] name None).
    + by rewrite selects_unscanned.
Qed.

Lemma empty_filter_on_people :
  findMany (Some []) (world people None)
  = (Ok (documents people), world people None)
  /\ exists fs',
       findManyAndDelete [] (world people None)
       = (Ok true, with_files (world people None) fs')
       /\ fs' !! "a.json" = None /\ fs' !! "b.json" = None
       /\ fs' !! ".DS_Store" = Some (File Garbled).
Proof.
  destruct empty_filter_selects_every_document as (_ & _ & Hfind & Hdel).
  split.
  - apply (Hfind (world people None)). vm_compute. reflexivity.
  - destruct (Hdel (world people None)) as (fs' & Hrun & Hfs').
    { vm_compute. reflexivity. }
    exists fs'. split; [exact Hrun|].
    rewrite !Hfs'. repeat split; vm_compute; reflexivity.
Defined.

End StoreClaims.

Module RecordFacts.
Import JS Lodash Fs ODModel Terms ScanFacts StoreFacts.
Local Open Scope io_scope.

Lemma json_clone_obj (m : obj) : json_clone (VObj m) = VObj (omap clone_field m).
Proof. reflexivity. Qed.

(** A property of a JSON-compatible object is itself JSON-compatible, and it
    is not undefined. *)
Lemma json_compatible_field (m : obj) (k : string) (v : value) :
  json_compatible (VObj m) -> m !! k = Some v ->
  clone_field v = Some v.
Proof.
  unfold json_compatible. rewrite json_clone_obj. intros [= Hm] Hk.
  assert (H : omap clone_field m !! k = Some v) by by rewrite Hm.
  rewrite lookup_omap, Hk in H. exact H.
Qed.

Lemma json_compatible_insert (m : obj) (k : string) (v : value) :
  json_compatible (VObj m) -> clone_field v = Some v ->
  json_compatible (VObj (<[k := v]> m)).
Proof.
  unfold json_compatible. rewrite !json_clone_obj. intros [= Hm] Hv.
  by rewrite omap_insert, Hv, Hm.
Qed.

Lemma clone_field_string (s : string) : clone_field (VStr s) = Some (VStr s).
Proof. reflexivity. Qed.

Lemma member_truthy (m : obj) (k : string) :
  ToBoolean (member (VObj m) k) = true -> m !! k = Some (member (VObj m) k).
Proof. unfold member. simpl. by destruct (m !! k). Qed.

Lemma assigned_id_truthy (document : obj) (w : World) :
  (forall n, nanoid w n <> "") -> ToBoolean (assigned_id document w) = true.
Proof.
  intros Hne. unfold assigned_id.
  destruct (ToBoolean (member (VObj document) "id")) eqn:E; [exact E|].
  simpl. specialize (Hne (ids_drawn w)).
  destruct (nanoid w (ids_drawn w)); [done|reflexivity].
Qed.

Lemma assigned_id_clone (document : obj) (w : World) :
  json_compatible (VObj document) ->
  clone_field (assigned_id document w) = Some (assigned_id document w).
Proof.
  intros Hdoc. unfold assigned_id.
  destruct (ToBoolean (member (VObj document) "id")) eqn:E; [|reflexivity].
  apply member_truthy in E. by eapply json_compatible_field.
Qed.

Lemma stamped_compatible (document : obj) (w : World) (t1 t2 : string) :
  json_compatible (VObj document) ->
  json_compatible (VObj (stamped document (assigned_id document w) t1 t2)).
Proof.
  intros Hdoc. unfold stamped.
  repeat apply json_compatible_insert;
    auto using clone_field_string, assigned_id_clone.
Qed.

(** What one call of [insertOne] does, in full. *)
Lemma insertOne_run (document : obj) (fileName : option string) (w : World) :
  let id := assigned_id document w in
  let stored :=
    stamped document id (clock w (clock_reads w)) (clock w (S (clock_reads w))) in
  let drawn := if ToBoolean (member (VObj document) "id")
               then ids_drawn w else S (ids_drawn w) in
  insertOne document fileName w
  = match files w !! target fileName id with
    | Some Directory =>
        (Throw (Error "Error inserting document" (Some EISDIR)),
         advanced w (files w) drawn (S (S (clock_reads w))))
    | _ =>
        (Ok (VObj stored),
         advanced w (<[target fileName id := File (JSON_stringify (VObj stored))]>
                       (files w))
                  drawn (S (S (clock_reads w))))
    end.
Proof.
  unfold insertOne, assigned_id, target, stamped.
  destruct (ToBoolean (member (VObj document) "id")), fileName as [name|];
    simpl; try destruct (negb (String.eqb name ""));
    unfold bind, ret, generateId, try_catch, now, writeFile, throw, advanced;
    simpl;
    match goal with
    | |- context [files w !! ?k] => destruct (files w !! k) as [[|]|]
    end; reflexivity.
Qed.

End RecordFacts.

Module UpdateFacts.
Import JS Lodash Fs ODModel Terms ScanFacts StoreFacts RecordFacts.
Local Open Scope io_scope.

Lemma found_truthy (id : value) (fs : gmap string entry) :
  ToBoolean (found id fs) = true ->
  fs !! json_path id = Some (File (Parses (found id fs))).
Proof.
  unfold found. destruct (ToBoolean id); [|done].
  by destruct (fs !! json_path id) as [[[v|]|]|].
Qed.

(** [findByIdAndUpdate] of lines 111-130, in full. *)
Lemma guarded_findByIdAndUpdate_run (id : string) (update : obj) (w : World) :
  let existing := found (VStr id) (files w) in
  let data := replaced update existing (clock w (clock_reads w)) in
  Guarded.findByIdAndUpdate id update w
  = if ToBoolean existing
    then (Ok (VObj data),
          advanced w (<[json_path (VStr id) := File (JSON_stringify (VObj data))]>
                        (files w))
                   (ids_drawn w) (S (clock_reads w)))
    else (Ok VNull, w).
Proof.
  simpl. unfold Guarded.findByIdAndUpdate, try_catch, bind at 1.
  rewrite findOne_total.
  destruct (ToBoolean (found (VStr id) (files w))) eqn:E; [|reflexivity].
  apply found_truthy in E.
  unfold bind, now, writeFile, ret, advanced, replaced. simpl. rewrite E.
  reflexivity.
Qed.

(** [findByIdAndUpdate] of lines 439-458, in full. *)
Lemma documented_findByIdAndUpdate_run (id : string) (update : obj) (w : World) :
  let existing := found (VStr id) (files w) in
  let data := merged update existing (clock w (clock_reads w)) in
  Documented.findByIdAndUpdate id update w
  = if ToBoolean existing
    then (Ok (VObj data),
          advanced w (<[json_path (VStr id) := File (JSON_stringify (VObj data))]>
                        (files w))
                   (ids_drawn w) (S (clock_reads w)))
    else (Ok VNull, w).
Proof.
  simpl. unfold Documented.findByIdAndUpdate, try_catch, bind at 1.
  rewrite findOne_total.
  destruct (ToBoolean (found (VStr id) (files w))) eqn:E; [|reflexivity].
  apply found_truthy in E.
  unfold bind, now, writeFile, ret, advanced, merged. simpl. rewrite E.
  reflexivity.
Qed.



End UpdateFacts.

(* ===================================================================== *)
(** ** The claims about single records *)
(* ===================================================================== *)

Module RecordClaims.
Import JS Lodash Fs ODModel Terms Examples.
Import ScanFacts StoreFacts RecordFacts UpdateFacts.
Local Open Scope io_scope.







(** Claim C8. Take a JSON-compatible document and an id generator that
    never returns the empty string. Whenever [insertOne(document)] returns,
    what it returns is the document extended with its id (its own when
    truthy, a generated one otherwise), [createdAt] and [updatedAt], and
    [findOne] on the id of the returned document yields that same document. *)
Theorem insertOne_then_findOne (document : obj) (w w' : World) (inserted : value) :
  json_compatible (VObj document) ->
  (forall n, nanoid w n <> "") ->
  insertOne document None w = (Ok inserted, w') ->
  inserted = VObj (stamped document (assigned_id document w)
                     (clock w (clock_reads w))
                     (clock w (S (clock_reads w))))
  /\ member inserted "id" = assigned_id document w
  /\ findOne (member inserted "id") w' = (Ok inserted, w').
Proof.
  intros Hdoc Hids Hrun.
  rewrite insertOne_run in Hrun. unfold target in Hrun.
  assert (Hid : forall t1 t2,
             member (VObj (stamped document (assigned_id document w) t1 t2)) "id"
             = assigned_id document w).
  { intros t1 t2. unfold member, stamped. simpl.
    do 2 rewrite lookup_insert_ne by done. by rewrite lookup_insert_eq. }
  assert (Hdone : (Ok inserted, w')
                  = (Ok (VObj (stamped document (assigned_id document w)
                                 (clock w (clock_reads w))
                                 (clock w (S (clock_reads w))))),
                     advanced w
                       (<[json_path (assigned_id document w) :=
                            File (JSON_stringify
                                    (VObj (stamped document (assigned_id document w)
                                             (clock w (clock_reads w))
                                             (clock w (S (clock_reads w))))))]>
                          (files w))
                       (if ToBoolean (member (VObj document) "id")
                        then ids_drawn w else S (ids_drawn w))
                       (S (S (clock_reads w))))).
  { rewrite <- Hrun.
    by destruct (files w !! json_path (assigned_id document w)) as [[|]|]. }
  injection Hdone as -> ->.
  split; [reflexivity|]. split; [apply Hid|].
  rewrite Hid, findOne_total. unfold found.
  rewrite (assigned_id_truthy _ _ Hids). simpl.
  rewrite lookup_insert_eq. unfold JSON_stringify.
  by rewrite (stamped_compatible document w _ _ Hdoc).
Qed.

Lemma insertOne_then_findOne_on_people :
  let run := insertOne carol None (world people None) in
  run = (Ok (VObj (stamped carol (VStr (ids 0)) (ticks 0) (ticks 1))), snd run)
  /\ findOne (VStr (ids 0)) (snd run)
     = (Ok (VObj (stamped carol (VStr (ids 0)) (ticks 0) (ticks 1))), snd run).
Proof.
  intros run.
  assert (Hrun : insertOne carol None (world people None)
                 = (Ok (VObj (stamped carol (VStr (ids 0)) (ticks 0) (ticks 1))),
                    snd run))
    by (vm_compute; reflexivity).
  split; [exact Hrun|].
  assert (Hcarol : json_compatible (VObj carol)) by (vm_compute; reflexivity).
  assert (Hids : forall n, nanoid (world people None) n <> "")
    by (intros n; discriminate).
  destruct (insertOne_then_findOne carol (world people None) (snd run) _
              Hcarol Hids Hrun) as (_ & Hid & Hfind).
  by rewrite Hid in Hfind.
Defined.

(** Claim C9, as the spec states it, fails for a document whose id is the
    empty string: it carries an [id] field, and [insertOne] draws an id from
    the generator and stores that one. *)
Lemma insertOne_replaces_an_empty_id :
  exists stored w',
    insertOne blank_id None (world people None) = (Ok (VObj stored), w')
    /\ blank_id !! "id" = Some (VStr "")
    /\ stored !! "id" = Some (VStr (ids 0))
    /\ VStr (ids 0) <> VStr ""
    /\ ids_drawn w' = 1.
Proof.
  eexists _, _. rewrite insertOne_run.
  split; [vm_compute; reflexivity|]. repeat split; try (vm_compute; reflexivity).
  discriminate.
Qed.

(** Claim C9, amended. Whenever [insertOne] returns, the document it
    returns is the one it stored, and: if the id of the input is truthy (for
    a string: not empty) that id is kept and nothing is drawn from the
    generator; if the id of the input is absent or falsy (the empty string,
    null, 0, false) the id is the next one of the generator. *)
Theorem insertOne_keeps_a_truthy_id (document : obj) (fileName : option string)
    (w w' : World) (stored : obj) :
  insertOne document fileName w = (Ok (VObj stored), w') ->
  files w' !! target fileName (assigned_id document w)
  = Some (File (JSON_stringify (VObj stored)))
  /\ (ToBoolean (member (VObj document) "id") = true ->
      stored !! "id" = Some (member (VObj document) "id")
      /\ ids_drawn w' = ids_drawn w)
  /\ (ToBoolean (member (VObj document) "id") = false ->
      stored !! "id" = Some (VStr (nanoid w (ids_drawn w)))
      /\ ids_drawn w' = S (ids_drawn w)).
Proof.
  intros Hrun. rewrite insertOne_run in Hrun.
  destruct (files w !! target fileName (assigned_id document w)) as [[|]|];
    try discriminate; injection Hrun as <- <-;
    (split; [simpl; by rewrite lookup_insert_eq|]);
    unfold stamped, assigned_id;
    (split; intros ->; simpl;
     do 2 rewrite lookup_insert_ne by done; by rewrite lookup_insert_eq).
Qed.

Lemma insertOne_keeps_the_id_of_alice :
  let run := insertOne alice None (world ∅ None) in
  run = (Ok (VObj (stamped alice (VStr "a") (ticks 0) (ticks 1))), snd run)
  /\ stamped alice (VStr "a") (ticks 0) (ticks 1) !! "id" = Some (VStr "a")
  /\ ids_drawn (snd run) = 0.
Proof.
  intros run.
  assert (Hrun : insertOne alice None (world ∅ None)
                 = (Ok (VObj (stamped alice (VStr "a") (ticks 0) (ticks 1))),
                    snd run))
    by (vm_compute; reflexivity).
  split; [exact Hrun|].
  destruct (insertOne_keeps_a_truthy_id alice None (world ∅ None) (snd run) _ Hrun)
    as (_ & Hkeeps & _).
  apply Hkeeps. reflexivity.
Defined.

End RecordClaims.

(* ===================================================================== *)
(** ** Properties of the backup routine *)
(* ===================================================================== *)

Module BackupFacts.
Import JS Fs ODDb BackupTerms.
Local Open Scope Z_scope.

(** *** Entries *)

Lemma lookup_entry_In (name : string) (l : list (string * node)) (x : node) :
  lookup_entry name l = Some x -> In (name, x) l.
Proof.
  induction l as [|[n y] l IH]; simpl; [discriminate|].
  destruct (String.eqb n name) eqn:E.
  - apply String.eqb_eq in E as ->. intros [= ->]. by left.
  - intros H. right. by apply IH.
Qed.

Lemma lookup_entry_None (name : string) (l : list (string * node)) :
  lookup_entry name l = None <-> ~ In name (names l).
Proof.
  induction l as [|[n y] l IH]; simpl; [tauto|].
  destruct (String.eqb n name) eqn:E.
  - apply String.eqb_eq in E as ->. split; [discriminate|]. tauto.
  - apply String.eqb_neq in E. rewrite IH. tauto.
Qed.

Lemma put_entry_fresh (name : string) (x : node) (l : list (string * node)) :
  ~ In name (names l) -> put_entry name x l = l ++ [(name, x)].
Proof.
  induction l as [|[n y] l IH]; simpl; [reflexivity|]. intros Hout.
  destruct (String.eqb n name) eqn:E.
  - apply String.eqb_eq in E. tauto.
  - f_equal. apply IH. tauto.
Qed.


Lemma names_put_entry_present (name : string) (x y : node)
    (l : list (string * node)) :
  lookup_entry name l = Some y -> names (put_entry name x l) = names l.
Proof.
  induction l as [|[m z] l IH]; simpl; [discriminate|].
  destruct (String.eqb m name); simpl; [reflexivity|].
  intros H. f_equal. by apply IH.
Qed.


Lemma among_filter (P : string -> bool) (l : list string) (name : string) :
  In name l -> among (List.filter P l) name = P name.
Proof.
  intros Hin. unfold among. destruct (P name) eqn:HP.
  - apply existsb_exists. exists name. split; [|apply String.eqb_refl].
    apply filter_In. by split.
  - apply not_true_is_false. intros (x & Hx & Heq)%existsb_exists.
    apply String.eqb_eq in Heq as <-. apply filter_In in Hx as [_ Hx].
    congruence.
Qed.

Lemma filter_twice {A} (f g : A -> bool) (l : list A) :
  List.filter f (List.filter g l) = List.filter (fun x => g x && f x) l.
Proof.
  induction l as [|a l IH]; simpl; [reflexivity|].
  destruct (g a); simpl; [destruct (f a)|]; by rewrite IH.
Qed.


Lemma lookup_put_entry_ne (name other : string) (x : node)
    (l : list (string * node)) :
  other <> name -> lookup_entry other (put_entry name x l) = lookup_entry other l.
Proof.
  intros Hne. induction l as [|[m y] l IH]; simpl.
  - apply String.eqb_neq in Hne. rewrite String.eqb_sym in Hne. by rewrite Hne.
  - destruct (String.eqb m name) eqn:E; simpl.
    + apply String.eqb_eq in E as ->.
      replace (String.eqb name other) with false; [reflexivity|].
      symmetry. apply String.eqb_neq. congruence.
    + destruct (String.eqb m other); [reflexivity|exact IH].
Qed.

Lemma lookup_remove_entry_ne (name other : string) (l : list (string * node)) :
  other <> name -> lookup_entry other (remove_entry name l) = lookup_entry other l.
Proof.
  intros Hne. unfold remove_entry. induction l as [|[m y] l IH]; simpl; [done|].
  destruct (String.eqb m name) eqn:E; simpl.
  - apply String.eqb_eq in E as ->.
    replace (String.eqb name other) with false; [exact IH|].
    symmetry. apply String.eqb_neq. congruence.
  - destruct (String.eqb m other); [reflexivity|exact IH].
Qed.

Lemma lookup_set_entry_ne (name other : string) (x : option node)
    (l : list (string * node)) :
  other <> name -> lookup_entry other (set_entry name x l) = lookup_entry other l.
Proof.
  destruct x; simpl; auto using lookup_put_entry_ne, lookup_remove_entry_ne.
Qed.

Lemma names_set_entry (name : string) (x : option node) (y : node)
    (l : list (string * node)) :
  lookup_entry name l = Some y -> incl (names (set_entry name x l)) (names l).
Proof.
  intros Hy. destruct x as [c|]; simpl.
  - rewrite (names_put_entry_present _ _ _ _ Hy). apply incl_refl.
  - unfold remove_entry, names. intros n (e & <- & He)%in_map_iff.
    apply filter_In in He as [He _]. apply in_map_iff. by exists e.
Qed.

(** *** Names *)


(** A natural number prints as digits that read back as the number. *)
Lemma NumberToString_digits (z : Z) :
  0 <= z ->
  exists d, d <> Decimal.Nil
            /\ NumberToString (Num z) = NilEmpty.string_of_uint d
            /\ Z.of_N (N.of_uint d) = z.
Proof.
  intros Hz. destruct z as [|p|p]; [| |lia].
  - exists (Decimal.D0 Decimal.Nil). repeat split. discriminate.
  - exists (Pos.to_uint p).
    pose proof (Unsigned.to_uint_nonnil p) as Hnil.
    split; [exact Hnil|]. split.
    + simpl. unfold NilZero.string_of_uint.
      by destruct (Pos.to_uint p).
    + unfold N.of_uint. by rewrite Unsigned.of_to.
Qed.

Lemma dash_append (s : string) : "-" +:+ s = String "-" s.
Proof. reflexivity. Qed.

Lemma split_digits (d : Decimal.uint) (rest : string) :
  split "-" (NilEmpty.string_of_uint d +:+ String "-" rest)
  = NilEmpty.string_of_uint d :: split "-" rest.
Proof. induction d; simpl; rewrite ?IHd; reflexivity. Qed.

Lemma StringToNumber_digits (d : Decimal.uint) :
  d <> Decimal.Nil ->
  StringToNumber (NilEmpty.string_of_uint d) = Num (Z.of_N (N.of_uint d)).
Proof.
  intros Hd.
  assert (Hdigits : digits (NilEmpty.string_of_uint d) = Num (Z.of_N (N.of_uint d))).
  { unfold digits. rewrite NilEmpty.usu. by destruct d. }
  rewrite <- Hdigits. by destruct d.
Qed.

(** The name [backup] gives a snapshot reads back as the day it was made. *)
Lemma snapshot_name_parts (today : Date) (n : nat) :
  0 <= getFullYear today -> 0 <= getMonth today + 1 -> 0 <= getDate today ->
  exists rest,
    split "-" (snapshot_name today n)
    = NumberToString (Num (getFullYear today))
      :: NumberToString (Num (getMonth today + 1))
      :: NumberToString (Num (getDate today)) :: rest
    /\ StringToNumber (NumberToString (Num (getFullYear today)))
       = Num (getFullYear today)
    /\ StringToNumber (NumberToString (Num (getMonth today + 1)))
       = Num (getMonth today + 1)
    /\ StringToNumber (NumberToString (Num (getDate today)))
       = Num (getDate today).
Proof.
  intros Hy Hm Hd. unfold snapshot_name.
  destruct (NumberToString_digits _ Hy) as (dy & Hdy & -> & Hvy).
  destruct (NumberToString_digits _ Hm) as (dm & Hdm & -> & Hvm).
  destruct (NumberToString_digits _ Hd) as (dd & Hdd & -> & Hvd).
  exists (split "-" (NumberToString (Num (Z.of_nat n)))).
  split.
  - rewrite !dash_append. by rewrite !split_digits.
  - rewrite !StringToNumber_digits by done. by rewrite Hvy, Hvm, Hvd.
Qed.


Lemma dirDate_snapshot_name (today : Date) (n : nat) :
  plausible today ->
  dirDate (snapshot_name today n) = TimeClip (day_of today * msPerDay).
Proof.
  intros (Hy & Hm & Hd & _).
  destruct (snapshot_name_parts today n) as (rest & Hsplit & Ey & Em & Ed);
    [lia..|].
  unfold dirDate. rewrite Hsplit.
  cbn -[StringToNumber NumberToString Z.add new_Date].
  rewrite Ey, Em, Ed. simpl.
  replace (getMonth today + 1 - 1) with (getMonth today) by lia.
  replace ((0 <=? getFullYear today) && (getFullYear today <=? 99)) with false;
    [reflexivity|].
  symmetry. apply andb_false_iff. right. apply Z.leb_gt. lia.
Qed.

(** The snapshot of the day is not expired that day. *)
Lemma snapshot_of_the_day_not_expired (today later : Date) (n : nat) :
  plausible today -> plausible later -> same_day today later ->
  expired later (snapshot_name today n) = false.
Proof.
  intros Hp Hl (Ey & Em & Ed). unfold expired.
  rewrite (dirDate_snapshot_name _ _ Hp). unfold TimeClip.
  destruct (_ <=? _); [|reflexivity].
  destruct Hl as (_ & _ & _ & Ht).
  unfold getTime, day_of, msPerDay in *. rewrite Ey, Em, Ed.
  apply Z.ltb_ge. lia.
Qed.

Lemma encodes_same_day (a b : Date) (dir : string) :
  same_day a b -> encodes a dir = encodes b dir.
Proof. intros (Ey & Em & Ed). unfold encodes. by rewrite Ey, Em, Ed. Qed.



Lemma taken_today_none (today : Date) (l : list (string * node)) (name : string) :
  taken_today today l = 0%nat -> In name (names l) -> encodes today name = false.
Proof.
  unfold taken_today. intros Hlen Hin.
  apply length_zero_iff_nil in Hlen.
  destruct (encodes today name) eqn:E; [|reflexivity].
  assert (Hmem : In name (List.filter (encodes today) (names l)))
    by (apply filter_In; by split).
  rewrite Hlen in Hmem. destruct Hmem.
Qed.

Lemma isAfter_subDays (today : Date) (dir : string) :
  isAfter (subDays today backupDaysLimit) (dirDate dir) = expired today dir.
Proof. reflexivity. Qed.

Lemma newDirName_snapshot_name (today : Date) (todayBackups : list string) :
  newDirName (getFullYear today) (getMonth today + 1) (getDate today) todayBackups
  = snapshot_name today (S (length todayBackups)).
Proof.
  unfold newDirName, snapshot_name. by rewrite Nat2Z.inj_succ, Z.add_1_r.
Qed.

End BackupFacts.

Module SnapshotFacts.
Import JS Fs ODDb BackupTerms BackupFacts.
Local Open Scope Z_scope.

(** *** What the two filters of [backup] make of a snapshot name *)

Lemma DaysBeforeMonth_bounds (leap : bool) (mn : Z) :
  0 <= DaysBeforeMonth leap mn <= 335.
Proof.
  unfold DaysBeforeMonth.
  destruct leap, mn as [|p|p]; try lia;
    repeat (destruct p as [p|p|]; try lia).
Qed.

Lemma day_of_bounds (date : Date) :
  calendar date -> -700000 <= day_of date <= 3000000.
Proof.
  intros (Hy & Hm & Hd). unfold day_of, MakeDay.
  rewrite (Z.div_small (getMonth date) 12), (Z.mod_small (getMonth date) 12) by lia.
  rewrite Z.add_0_r.
  pose proof (DaysBeforeMonth_bounds (InLeapYear (getFullYear date))
                (getMonth date)) as Hb.
  unfold DayFromYear.
  pose proof (Z.div_le_lower_bound (getFullYear date - 1969) 4 (-468)).
  pose proof (Z.div_le_upper_bound (getFullYear date - 1969) 4 2008).
  pose proof (Z.div_le_lower_bound (getFullYear date - 1901) 100 (-19)).
  pose proof (Z.div_le_upper_bound (getFullYear date - 1901) 100 81).
  pose proof (Z.div_le_lower_bound (getFullYear date - 1601) 400 (-4)).
  pose proof (Z.div_le_upper_bound (getFullYear date - 1601) 400 21).
  lia.
Qed.

(** The first three parts of a snapshot name read back as the date. *)
Lemma dirDate_named (date : Date) (n : nat) :
  calendar date ->
  dirDate (snapshot_name date n) = Some (day_of date * msPerDay).
Proof.
  intros Hc. pose proof (day_of_bounds date Hc) as Hb.
  destruct Hc as (Hy & Hm & Hd).
  destruct (snapshot_name_parts date n) as (rest & Hsplit & Ey & Em & Ed);
    [lia..|].
  unfold dirDate. rewrite Hsplit.
  cbn -[StringToNumber NumberToString Z.add new_Date].
  rewrite Ey, Em, Ed. simpl.
  replace (getMonth date + 1 - 1) with (getMonth date) by lia.
  replace ((0 <=? getFullYear date) && (getFullYear date <=? 99)) with false.
  2:{ symmetry. apply andb_false_iff. right. apply Z.leb_gt. lia. }
  fold (day_of date). unfold TimeClip.
  replace (Z.abs (day_of date * msPerDay) <=? 8640000000000000) with true;
    [reflexivity|].
  symmetry. apply Z.leb_le. unfold msPerDay. lia.
Qed.

(** The first filter of [backup] on a snapshot name: the snapshot is let
    through exactly when it is older than the retention window. *)
Lemma expired_named (today date : Date) (n : nat) :
  calendar date ->
  0 <= timeInDay today < msPerDay ->
  expired today (snapshot_name date n) = outdated today date.
Proof.
  intros Hc Ht. unfold expired. rewrite (dirDate_named date n Hc).
  unfold outdated, age, getTime. fold (day_of today).
  unfold msPerDay in *.
  destruct (30 <? day_of today - day_of date) eqn:E1; simpl.
  - apply Z.ltb_lt in E1. apply Z.ltb_lt. lia.
  - apply Z.ltb_ge in E1.
    destruct (day_of today - day_of date =? 30) eqn:E2; simpl.
    + apply Z.eqb_eq in E2.
      destruct (0 <? timeInDay today) eqn:E3.
      * apply Z.ltb_lt in E3. apply Z.ltb_lt. lia.
      * apply Z.ltb_ge in E3. apply Z.ltb_ge. lia.
    + apply Z.eqb_neq in E2. apply Z.ltb_ge. lia.
Qed.

Lemma eqb_succ (a b : Z) : (a + 1 =? b + 1) = (a =? b).
Proof.
  destruct (Z.eqb_spec a b) as [->|Hne].
  - apply Z.eqb_refl.
  - apply Z.eqb_neq. lia.
Qed.

(** The second filter of [backup] on a snapshot name: the snapshot is
    counted exactly when it was taken on the day of [today]. *)
Lemma encodes_named (today date : Date) (n : nat) :
  calendar date ->
  encodes today (snapshot_name date n) = of_the_day today date.
Proof.
  intros (Hy & Hm & Hd).
  destruct (snapshot_name_parts date n) as (rest & Hsplit & Ey & Em & Ed);
    [lia..|].
  unfold encodes, isTodayBackup. rewrite Hsplit.
  cbn -[StringToNumber NumberToString Z.add].
  rewrite Ey, Em, Ed. simpl. unfold of_the_day. by rewrite eqb_succ.
Qed.






(** *** Listings of snapshots *)

Lemma names_named (snapshots : list Snapshot) :
  names (map named snapshots)
  = map (fun s => snapshot_name (taken s) (sequence s)) snapshots.
Proof. unfold names. rewrite map_map. reflexivity. Qed.

Lemma In_names_named (snapshots : list Snapshot) (name : string) :
  In name (names (map named snapshots))
  <-> exists s, In s snapshots /\ name = snapshot_name (taken s) (sequence s).
Proof.
  rewrite names_named, in_map_iff. split; intros (s & H1 & H2); exists s; auto.
Qed.

Lemma filter_map {A B} (f : A -> B) (p : B -> bool) (l : list A) :
  List.filter p (map f l) = map f (List.filter (fun x => p (f x)) l).
Proof.
  induction l as [|a l IH]; simpl; [reflexivity|].
  destruct (p (f a)); simpl; by rewrite IH.
Qed.

(** The count of the second filter is the number of snapshots of the
    day. *)
Lemma taken_today_named (today : Date) (snapshots : list Snapshot) :
  Forall (fun s => calendar (taken s)) snapshots ->
  S (taken_today today (map named snapshots)) = next_sequence today snapshots.
Proof.
  intros Hall. unfold taken_today, next_sequence. f_equal.
  rewrite names_named, filter_map, length_map. f_equal.
  apply filter_ext_in. intros s Hs.
  rewrite Forall_forall in Hall.
  apply encodes_named, Hall. by apply list_elem_of_In.
Qed.

(** The names the first filter lets through are those of the outdated
    snapshots. *)
Lemma among_expired_named (today : Date) (snapshots : list Snapshot) (s : Snapshot) :
  Forall (fun s => calendar (taken s)) snapshots ->
  0 <= timeInDay today < msPerDay ->
  In s snapshots ->
  among (List.filter (expired today) (names (map named snapshots)))
    (fst (named s))
  = outdated today (taken s).
Proof.
  intros Hall Ht Hs. rewrite among_filter.
  - simpl. apply expired_named; [|exact Ht].
    rewrite Forall_forall in Hall. apply Hall. by apply list_elem_of_In.
  - apply In_names_named. by exists s.
Qed.

End SnapshotFacts.

Module TreeFacts.
Import JS Fs ODDb BackupTerms BackupFacts.
Local Open Scope Z_scope.

Lemma rmdir_Folder (entries : list (string * node)) :
  rmdir (Folder entries)
  = match rmdir_loop entries with
    | None => None
    | Some (Ok _, _) => Some (Ok tt, None)
    | Some (Throw e, remaining) => Some (Throw e, Some (Folder remaining))
    end.
Proof. reflexivity. Qed.

Lemma copyDir_fresh (files : list (string * node)) :
  copyDir (Folder files) None
  = match copyDir_loop files [] [] with
    | None => None
    | Some (r, written, pipes) => Some (r, Some (Folder written), pipes)
    end.
Proof. reflexivity. Qed.

Lemma copyDir_merge (files existing : list (string * node)) :
  copyDir (Folder files) (Some (Folder existing))
  = match copyDir_loop files existing [] with
    | None => None
    | Some (r, written, pipes) => Some (r, Some (Folder written), pipes)
    end.
Proof. reflexivity. Qed.

Lemma skeleton_Folder (children : list (string * node)) :
  skeleton (Folder children) = Folder (skeleton_entries skeleton children).
Proof. reflexivity. Qed.

Lemma streams_of_Folder (children : list (string * node)) :
  streams_of (Folder children) = streams_entries streams_of children.
Proof. reflexivity. Qed.

(** Induction on trees: a property of the children gives the property of
    the directory. *)
Lemma node_induction (P : node -> Prop) :
  (forall bytes, P (RegularFile bytes)) ->
  (forall target, P (SymbolicLink target)) ->
  (forall children, Forall (fun e => P (snd e)) children -> P (Folder children)) ->
  forall n, P n.
Proof.
  intros Hfile Hlink Hdir. fix IH 1. intros [bytes|target|children].
  - apply Hfile.
  - apply Hlink.
  - apply Hdir.
    refine ((fix go (l : list (string * node)) : Forall (fun e => P (snd e)) l :=
               match l with
               | [] => List.Forall_nil _
               | e :: rest => List.Forall_cons _ e rest _ (go rest)
               end) children).
    destruct e as [name child]. simpl. apply IH.
Qed.

(** *** Removal *)

Lemma rmdir_loop_link_free (entries : list (string * node)) :
  Forall (fun e => forall es, snd e = Folder es -> link_free (snd e) = true ->
                     rmdir (snd e) = Some (Ok tt, None)) entries ->
  forallb (fun e => link_free (snd e)) entries = true ->
  rmdir_loop entries = Some (Ok tt, []).
Proof.
  induction entries as [|[name child] rest IH]; intros Hall Hfree;
    [reflexivity|].
  apply Forall_cons in Hall as [Hchild Hrest].
  simpl in Hfree. apply andb_true_iff in Hfree as [Hc Hfree].
  specialize (IH Hrest Hfree). destruct child as [bytes|target|es].
  - exact IH.
  - discriminate Hc.
  - pose proof (Hchild es eq_refl Hc) as Hrm.
    change (rmdir_loop ((name, Folder es) :: rest))
      with (match rmdir (Folder es) with
            | None => None
            | Some (Ok _, _) => rmdir_loop rest
            | Some (Throw e, remains) =>
                Some (Throw e, match remains with
                               | Some c => (name, c) :: rest
                               | None => rest
                               end)
            end).
    change (rmdir (snd (name, Folder es))) with (rmdir (Folder es)) in Hrm.
    rewrite Hrm. exact IH.
Qed.

(** [rmdir] gets through a directory without links, and nothing is left
    of it. *)
Lemma rmdir_link_free (n : node) :
  forall es, n = Folder es -> link_free n = true ->
    rmdir n = Some (Ok tt, None).
Proof.
  induction n as [bytes|target|children IH] using node_induction;
    intros es; try discriminate. intros _ Hfree.
  rewrite rmdir_Folder, (rmdir_loop_link_free children IH); [reflexivity|].
  exact Hfree.
Qed.

Lemma removable_rmdir (n : node) :
  removable n = true -> rmdir n = Some (Ok tt, None).
Proof.
  unfold removable. intros [Hdir Hfree]%andb_true_iff.
  destruct n as [| |es]; try discriminate.
  by apply (rmdir_link_free (Folder es) es).
Qed.

(** The sweep over removable snapshots gets through, and what is left is
    the listing without the names it was given. *)
Lemma removeOld_sweeps (olds : list string) :
  forall root,
    (forall e, In e root -> among olds (fst e) = true ->
               removable (snd e) = true) ->
    removeOld olds root
    = Some (Ok tt, List.filter (fun e => negb (among olds (fst e))) root).
Proof.
  induction olds as [|dir rest IH]; intros root Hall; simpl.
  - f_equal. f_equal. symmetry. apply forallb_filter_id, forallb_forall. done.
  - destruct (lookup_entry dir root) as [found|] eqn:Hfound.
    + pose proof (lookup_entry_In _ _ _ Hfound) as Hin.
      rewrite (removable_rmdir found).
      2:{ apply (Hall (dir, found) Hin). unfold among. simpl.
          by rewrite String.eqb_refl. }
      simpl. rewrite IH.
      * f_equal. f_equal. unfold remove_entry. rewrite filter_twice.
        apply filter_ext. intros [n y]. simpl. unfold among. simpl.
        by rewrite negb_orb.
      * intros e [He _]%filter_In Hamong. apply (Hall e He).
        unfold among in *. simpl. rewrite Hamong. apply orb_true_r.
    + rewrite IH.
      * f_equal. f_equal. apply filter_ext_in. intros [n y] Hin. simpl.
        unfold among. simpl.
        replace (String.eqb n dir) with false; [reflexivity|].
        symmetry. apply String.eqb_neq. intros ->.
        apply lookup_entry_None in Hfound. apply Hfound.
        unfold names. apply in_map_iff. by exists (dir, y).
      * intros e He Hamong. apply (Hall e He).
        unfold among in *. simpl. rewrite Hamong. apply orb_true_r.
Qed.

(** *** The copy *)

Lemma distinct_head (x : string) (l : list string) :
  distinct (x :: l) = true -> ~ In x l /\ distinct l = true.
Proof.
  simpl. intros [Hx Hl]%andb_true_iff. split; [|exact Hl].
  intros Hin. apply negb_true_iff in Hx.
  assert (H : existsb (String.eqb x) l = true).
  { apply existsb_exists. exists x. split; [exact Hin|apply String.eqb_refl]. }
  congruence.
Qed.

Lemma names_app (a b : list (string * node)) :
  names (a ++ b) = names a ++ names b.
Proof. unfold names. apply map_app. Qed.

(** The loop of [copyDir] into a listing that holds none of the names to
    copy: the directories and the links are appended, a stream is started
    for each regular file. *)
Lemma copyDir_loop_fresh (files : list (string * node)) :
  Forall (fun e => forall es, snd e = Folder es -> well_listed (snd e) = true ->
                     copyDir (snd e) None
                     = Some (Ok tt, Some (skeleton (snd e)), streams_of (snd e)))
         files ->
  forall dst pipes,
    distinct (names files) = true ->
    forallb (fun e => well_listed (snd e)) files = true ->
    (forall n, In n (names files) -> ~ In n (names dst)) ->
    copyDir_loop files dst pipes
    = Some (Ok tt, dst ++ skeleton_entries skeleton files,
            pipes ++ streams_entries streams_of files).
Proof.
  induction files as [|[name current] rest IH]; intros Hall dst pipes Hd Hw Hfresh.
  - simpl. by rewrite !app_nil_r.
  - apply Forall_cons in Hall as [Hcur Hall].
    change (names ((name, current) :: rest)) with (name :: names rest) in Hd.
    apply distinct_head in Hd as [Hname Hd].
    simpl in Hw. apply andb_true_iff in Hw as [Hwc Hw].
    assert (Hnone : lookup_entry name dst = None).
    { apply lookup_entry_None, Hfresh. by left. }
    assert (Hstep : forall c pipes',
               copyDir_loop rest (set_entry name (Some c) dst) pipes'
               = Some (Ok tt, dst ++ (name, c) :: skeleton_entries skeleton rest,
                       pipes' ++ streams_entries streams_of rest)).
    { intros c pipes'. simpl.
      rewrite put_entry_fresh by (apply Hfresh; by left).
      rewrite (IH Hall _ _ Hd Hw).
      - by rewrite <- app_assoc.
      - intros n Hn. rewrite names_app. simpl.
        intros [Hin|[<-|[]]]%in_app_or.
        + apply (Hfresh n); [by right|exact Hin].
        + done. }
    destruct current as [bytes|target|es].
    + change (copyDir_loop ((name, RegularFile bytes) :: rest) dst pipes)
        with (copyDir_loop rest dst (pipes ++ [copyFile bytes name])).
      rewrite (IH Hall _ _ Hd Hw).
      * simpl. by rewrite <- app_assoc.
      * intros n Hn. apply Hfresh. by right.
    + change (copyDir_loop ((name, SymbolicLink target) :: rest) dst pipes)
        with (let '(r, copied) := symlinkSync target (lookup_entry name dst) in
              match r with
              | Ok _ => copyDir_loop rest (set_entry name copied dst) pipes
              | Throw e => Some (Throw e, set_entry name copied dst, pipes)
              end).
      rewrite Hnone. cbn [symlinkSync]. rewrite Hstep. reflexivity.
    + pose proof (Hcur es eq_refl Hwc) as Hcopy.
      change (copyDir (Folder es) None
              = Some (Ok tt, Some (skeleton (Folder es)), streams_of (Folder es)))
        in Hcopy.
      change (copyDir_loop ((name, Folder es) :: rest) dst pipes)
        with (match copyDir (Folder es) (lookup_entry name dst) with
              | None => None
              | Some (r, copied, inner) =>
                  match r with
                  | Ok _ =>
                      copyDir_loop rest (set_entry name copied dst)
                        (pipes ++ map (under name) inner)
                  | Throw e =>
                      Some (Throw e, set_entry name copied dst,
                            pipes ++ map (under name) inner)
                  end
              end).
      rewrite Hnone, Hcopy, Hstep.
      cbn [skeleton_entries streams_entries]. by rewrite <- app_assoc.
Qed.

(** [copyDir] into a destination that does not exist yet: the directories
    and the links of the source are there when it returns, and one stream
    has been started for each regular file. *)
Lemma copyDir_skeleton (n : node) :
  forall es, n = Folder es -> well_listed n = true ->
    copyDir n None = Some (Ok tt, Some (skeleton n), streams_of n).
Proof.
  induction n as [bytes|target|children IH] using node_induction;
    intros es; try discriminate. intros _ Hw.
  change (well_listed (Folder children))
    with (distinct (names children)
          && forallb (fun e => well_listed (snd e)) children) in Hw.
  apply andb_true_iff in Hw as [Hd Hw].
  rewrite copyDir_fresh, (copyDir_loop_fresh children IH [] [] Hd Hw).
  - by rewrite skeleton_Folder, streams_of_Folder.
  - intros n _ [].
Qed.

End TreeFacts.

Module SweepFacts.
Import JS Fs ODDb BackupTerms BackupFacts SnapshotFacts TreeFacts.
Local Open Scope Z_scope.

(** [backup] with its two filters and the name it builds told in the
    vocabulary of the statements. *)
Lemma backup_unfold (today : Date) (d : Disk) :
  backup today d
  = match removeOld (List.filter (expired today) (names (listing d)))
            (listing d) with
    | None => None
    | Some (Throw e, pruned) => Some (Throw e, with_backups d pruned)
    | Some (Ok _, pruned) =>
        let name := snapshot_name today (S (taken_today today (listing d))) in
        match db d with
        | Some files =>
            match copyDir (Folder files) (lookup_entry name pruned) with
            | None => None
            | Some (r, snapshot, pipes) =>
                Some (r, {| db := db d;
                            backups := Some (set_entry name snapshot pruned);
                            piping := piping d ++ map (under name) pipes |})
            end
        | None =>
            let '(_, made) := mkdir (lookup_entry name pruned) in
            Some (Throw ENOENT, with_backups d (set_entry name made pruned))
        end
    end.
Proof.
  unfold backup. fold (listing d). fold (names (listing d)).
  rewrite (filter_ext _ _ (isAfter_subDays today)).
  rewrite newDirName_snapshot_name. fold (encodes today).
  fold (taken_today today (listing d)). reflexivity.
Qed.

(** The sweep over a listing of snapshots, the outdated ones removable:
    it gets through and leaves the snapshots that are not outdated, in the
    order of the listing. *)
Lemma sweep_named (today : Date) (snapshots : list Snapshot) :
  0 <= timeInDay today < msPerDay ->
  Forall (fun s => calendar (taken s)) snapshots ->
  Forall (fun s => outdated today (taken s) = true -> removable (tree s) = true)
         snapshots ->
  removeOld (List.filter (expired today) (names (map named snapshots)))
    (map named snapshots)
  = Some (Ok tt, map named (retained today snapshots)).
Proof.
  intros Ht Hcal Hrm. rewrite removeOld_sweeps.
  - f_equal. f_equal. rewrite filter_map. f_equal. unfold retained.
    apply filter_ext_in. intros s Hs. f_equal.
    by apply among_expired_named.
  - intros e (s & <- & Hs)%in_map_iff Hamong.
    rewrite (among_expired_named today snapshots s Hcal Ht Hs) in Hamong.
    rewrite Forall_forall in Hrm. apply Hrm; [|exact Hamong].
    by apply list_elem_of_In.
Qed.

(** A run of [backup] on a directory of snapshots, the outdated ones
    removable: the copy is made into the snapshots that are not outdated,
    under the name of the day with the next sequence number. *)
Lemma backup_on_snapshots (today : Date) (d : Disk) (snapshots : list Snapshot) :
  plausible today ->
  listing d = map named snapshots ->
  Forall (fun s => calendar (taken s)) snapshots ->
  Forall (fun s => outdated today (taken s) = true -> removable (tree s) = true)
         snapshots ->
  let name := snapshot_name today (next_sequence today snapshots) in
  let kept := map named (retained today snapshots) in
  backup today d
  = match db d with
    | Some files =>
        match copyDir (Folder files) (lookup_entry name kept) with
        | None => None
        | Some (r, snapshot, pipes) =>
            Some (r, {| db := db d;
                        backups := Some (set_entry name snapshot kept);
                        piping := piping d ++ map (under name) pipes |})
        end
    | None =>
        let '(_, made) := mkdir (lookup_entry name kept) in
        Some (Throw ENOENT, with_backups d (set_entry name made kept))
    end.
Proof.
  intros (_ & _ & _ & Ht) Hlist Hcal Hrm. simpl.
  rewrite backup_unfold, Hlist, (sweep_named today snapshots Ht Hcal Hrm).
  by rewrite (taken_today_named today snapshots Hcal).
Qed.

(** What [copyDir] leaves at the destination is never nothing. *)
Lemma copyDir_leaves_something (source : node) (destination : option node)
    (r : outcome unit) (copied : option node) (pipes : list pipe) :
  copyDir source destination = Some (r, copied, pipes) ->
  exists n, copied = Some n.
Proof.
  destruct source as [bytes|target|files], destination as [[b|t|existing]|];
    simpl; try discriminate; try (intros [= _ <- _]; eauto).
  - destruct (copyDir_blocked files []). intros [= _ <- _]. eauto.
  - match goal with
    | |- context [match ?run with Some _ => _ | None => _ end] =>
        destruct run as [[[r' written] pipes']|]
    end; [|discriminate]. intros [= _ <- _]. eauto.
  - match goal with
    | |- context [match ?run with Some _ => _ | None => _ end] =>
        destruct run as [[[r' written] pipes']|]
    end; [|discriminate]. intros [= _ <- _]. eauto.
Qed.

(** Whatever the outcome of such a run, the backup directory holds the
    snapshots that are not outdated, with something put under the name of
    the new snapshot. *)
Lemma backup_leaves (today : Date) (d d' : Disk) (snapshots : list Snapshot)
    (r : outcome unit) :
  plausible today ->
  listing d = map named snapshots ->
  Forall (fun s => calendar (taken s)) snapshots ->
  Forall (fun s => outdated today (taken s) = true -> removable (tree s) = true)
         snapshots ->
  backup today d = Some (r, d') ->
  exists copied,
    listing d'
    = put_entry (snapshot_name today (next_sequence today snapshots)) copied
        (map named (retained today snapshots)).
Proof.
  intros Hp Hlist Hcal Hrm.
  rewrite (backup_on_snapshots today d snapshots Hp Hlist Hcal Hrm).
  destruct (db d) as [files|].
  - destruct (copyDir _ _) as [[[r' snapshot] pipes]|] eqn:Hcopy; [|discriminate].
    destruct (copyDir_leaves_something _ _ _ _ _ Hcopy) as [n ->].
    intros [= _ <-]. by exists n.
  - destruct (mkdir _) as [r' made] eqn:Hmade. intros [= _ <-].
    unfold mkdir in Hmade.
    destruct (lookup_entry _ _) as [existing|]; injection Hmade as _ <-;
      eexists; reflexivity.
Qed.








Lemma names_retained (today : Date) (snapshots : list Snapshot) (name : string) :
  In name (names (map named (retained today snapshots))) ->
  In name (names (map named snapshots)).
Proof.
  rewrite !In_names_named. intros (s & [Hs _]%filter_In & Heq). eauto.
Qed.

(** A run that finds the store and a free name for the snapshot: it gets
    through, and the new snapshot comes last. *)
Lemma backup_succeeds (today : Date) (d : Disk) (snapshots : list Snapshot)
    (files : list (string * node)) :
  plausible today ->
  listing d = map named snapshots ->
  Forall (fun s => calendar (taken s)) snapshots ->
  Forall (fun s => outdated today (taken s) = true -> removable (tree s) = true)
         snapshots ->
  db d = Some files ->
  well_listed (Folder files) = true ->
  let name := snapshot_name today (next_sequence today snapshots) in
  ~ In name (names (listing d)) ->
  backup today d
  = Some (Ok tt,
          {| db := db d;
             backups := Some (map named (retained today snapshots)
                              ++ [(name, skeleton (Folder files))]);
             piping := piping d ++ map (under name) (streams_of (Folder files)) |}).
Proof.
  intros Hp Hlist Hcal Hrm Hdb Hw name Hfree.
  rewrite (backup_on_snapshots today d snapshots Hp Hlist Hcal Hrm), Hdb.
  fold name.
  assert (Hout : ~ In name (names (map named (retained today snapshots)))).
  { intros Hin. apply Hfree. rewrite Hlist. by eapply names_retained. }
  rewrite (proj2 (lookup_entry_None _ _) Hout).
  rewrite (copyDir_skeleton (Folder files) files eq_refl Hw).
  simpl. by rewrite put_entry_fresh.
Qed.

End SweepFacts.

(* ===================================================================== *)
(** ** The claims about backup *)
(* ===================================================================== *)

Module BackupClaims.
Import JS Fs ODDb BackupTerms Examples MoreExamples.
Import BackupFacts SnapshotFacts TreeFacts SweepFacts.
Local Open Scope Z_scope.









End BackupClaims.

(* ===================================================================== *)
(** ** Laws of the filter language *)
(* ===================================================================== *)

Module FilterLaws.
Import JS Lodash Fs ODModel Terms FilterTerms Examples.

Lemma IsStrictlyEqual_sym (x y : value) :
  IsStrictlyEqual x y = IsStrictlyEqual y x.
Proof.
  destruct x as [| |a|[|a]|a|l|m], y as [| |b|[|b]|b|l'|m']; simpl;
    try reflexivity.
  - by destruct a, b.
  - apply Z.eqb_sym.
  - apply String.eqb_sym.
Qed.

(** An operator object that holds one operator only: the other eight are
    not found in it. *)
Lemma has_singleton (op other : string) (operand : value) :
  has (VObj {[ op := operand ]}) other = String.eqb op other.
Proof.
  unfold has. simpl. destruct (String.eqb op other) eqn:E.
  - apply String.eqb_eq in E as ->. by rewrite lookup_singleton_eq.
  - apply String.eqb_neq in E. by rewrite lookup_singleton_ne.
Qed.

Lemma member_singleton (op : string) (operand : value) :
  member (VObj {[ op := operand ]}) op = operand.
Proof. unfold member. simpl. by rewrite lookup_singleton_eq. Qed.

Lemma matchesFilter_single (document : value) (key : string) (filterValue : value) :
  matchesFilter document [(key, filterValue)]
  = matchesField (get document key) filterValue.
Proof. simpl. by destruct (matchesField _ _) as [[|]|]. Qed.

Lemma matchesField_eq (documentValue operand : value) :
  matchesField documentValue (VObj {[ "$eq" := operand ]})
  = Ok (IsStrictlyEqual documentValue operand).
Proof.
  unfold matchesField. rewrite !has_singleton, member_singleton. simpl.
  by destruct (IsStrictlyEqual documentValue operand).
Qed.

Lemma matchesField_ne (documentValue operand : value) :
  matchesField documentValue (VObj {[ "$ne" := operand ]})
  = Ok (negb (IsStrictlyEqual documentValue operand)).
Proof.
  unfold matchesField. rewrite !has_singleton, member_singleton. simpl.
  by destruct (IsStrictlyEqual documentValue operand).
Qed.

Lemma matchesField_literal (documentValue literal : value) :
  isObject literal = false ->
  matchesField documentValue literal
  = Ok (IsStrictlyEqual documentValue literal).
Proof.
  intros H. unfold matchesField. rewrite H, IsStrictlyEqual_sym.
  by destruct (IsStrictlyEqual documentValue literal).
Qed.

Lemma IsStrictlyEqual_object (documentValue operand : value) :
  isObject operand = true -> IsStrictlyEqual documentValue operand = false.
Proof. by destruct documentValue as [| |a|[|a]|a|l|m], operand. Qed.

Lemma matchesField_in (documentValue : value) (l : list value) :
  matchesField documentValue (VObj {[ "$in" := VArr l ]})
  = Ok (existsb (SameValueZero documentValue) l).
Proof.
  unfold matchesField. rewrite !has_singleton, member_singleton. simpl.
  by destruct (existsb _ l).
Qed.

Lemma matchesField_nin (documentValue : value) (l : list value) :
  matchesField documentValue (VObj {[ "$nin" := VArr l ]})
  = Ok (negb (existsb (SameValueZero documentValue) l)).
Proof.
  unfold matchesField. rewrite !has_singleton, member_singleton. simpl.
  by destruct (existsb _ l).
Qed.

Lemma matchesField_exists (documentValue operand : value) :
  matchesField documentValue (VObj {[ "$exists" := operand ]})
  = Ok (Bool.eqb (ToBoolean operand)
          (negb (IsStrictlyEqual documentValue VUndefined))).
Proof.
  unfold matchesField. rewrite !has_singleton, member_singleton. simpl.
  by destruct (ToBoolean operand), (IsStrictlyEqual documentValue VUndefined).
Qed.

End FilterLaws.

Module FilterProperties.
Import JS Lodash Fs ODModel Terms FilterTerms Examples FilterLaws.

(** Property X1. The entries of a filter are conjoined from left to right:
    a filter made of two parts evaluates the first part and, only when that
    one ends in true, the second. So a document passes the whole exactly
    when it passes both parts, and a rejection or an exception of the first
    part is the answer whatever the second part holds. *)
Theorem filter_entries_are_conjoined (document : value) (f1 f2 : ODFilter) :
  matchesFilter document (f1 ++ f2)
  = match matchesFilter document f1 with
    | Ok true => matchesFilter document f2
    | r => r
    end
  /\ (matchesFilter document (f1 ++ f2) = Ok true
      <-> matchesFilter document f1 = Ok true
          /\ matchesFilter document f2 = Ok true).
Proof.
  assert (Heq : matchesFilter document (f1 ++ f2)
                = match matchesFilter document f1 with
                  | Ok true => matchesFilter document f2
                  | r => r
                  end).
  { induction f1 as [|[key filterValue] f1 IH]; simpl; [reflexivity|].
    by destruct (matchesField _ _) as [[|]|]. }
  split; [exact Heq|]. rewrite Heq.
  destruct (matchesFilter document f1) as [[|]|]; split;
    try tauto; try (intros [H _]; discriminate H); discriminate.
Qed.

(** Property X2. A filter entry whose value is an array, or an object that
    holds none of the nine operator names, rejects no document: an array is
    an object for lodash [isObject], so the branch taken is the one of the
    operator objects, none of its tests applies, and the [Array.isArray]
    branch below it is never reached. *)
Theorem entry_without_operator_rejects_nothing :
  (forall l, operator_free (VArr l) = true)
  /\ (forall filterValue document key,
        operator_free filterValue = true ->
        matchesFilter document [(key, filterValue)] = Ok true).
Proof.
  split; [reflexivity|].
  intros filterValue document key H. rewrite matchesFilter_single.
  unfold operator_free in H. apply andb_true_iff in H as [Hobj H].
  simpl in H. repeat (apply andb_true_iff in H as [?%negb_true_iff H]).
  unfold matchesField. rewrite Hobj.
  repeat match goal with
         | E : has filterValue _ = false |- _ => rewrite E; clear E
         end.
  reflexivity.
Qed.

Lemma array_entry_on_alice :
  get (VObj alice) "age" = VNum (Num 30)
  /\ matchesFilter (VObj alice) [("age", VArr [VNum (Num 31)])] = Ok true
  /\ matchesFilter (VObj alice) [("age", VObj {[ "min" := VNum (Num 31) ]})]
     = Ok true.
Proof.
  destruct entry_without_operator_rejects_nothing as [Harr Hfree].
  split; [reflexivity|]. split.
  - apply Hfree, Harr.
  - apply Hfree. vm_compute. reflexivity.
Defined.

(** Property X3. [{key: {$eq: x}}] with a primitive [x] selects the
    documents that the literal entry [{key: x}] selects; with an array or an
    object for [x] it selects no document at all, since a value read from a
    file is never identical to one built by the caller. *)
Theorem eq_operator_agrees_with_the_literal (document : value) (key : string)
    (x : value) :
  (isObject x = false ->
   matchesFilter document [(key, VObj {[ "$eq" := x ]})]
   = matchesFilter document [(key, x)])
  /\ (isObject x = true ->
      matchesFilter document [(key, VObj {[ "$eq" := x ]})] = Ok false).
Proof.
  rewrite !matchesFilter_single, matchesField_eq. split; intros H.
  - by rewrite matchesField_literal.
  - by rewrite IsStrictlyEqual_object.
Qed.

Lemma eq_operator_on_alice :
  matchesFilter (VObj alice) [("age", VObj {[ "$eq" := VNum (Num 30) ]})]
  = matchesFilter (VObj alice) [("age", VNum (Num 30))]
  /\ matchesFilter (VObj alice) [("age", VObj {[ "$eq" := VArr [] ]})] = Ok false.
Proof.
  split.
  - apply eq_operator_agrees_with_the_literal. reflexivity.
  - apply eq_operator_agrees_with_the_literal. reflexivity.
Defined.

(** Property X4. [$ne] is the complement of [$eq]: on every document and
    operand both evaluations end, and with opposite answers. In particular
    a document that lacks the field passes [$ne] for every operand other
    than undefined. *)
Theorem ne_operator_complements_eq (document : value) (key : string) (x : value) :
  exists b,
    matchesFilter document [(key, VObj {[ "$eq" := x ]})] = Ok b
    /\ matchesFilter document [(key, VObj {[ "$ne" := x ]})] = Ok (negb b)
    /\ b = IsStrictlyEqual (get document key) x.
Proof.
  exists (IsStrictlyEqual (get document key) x).
  by rewrite !matchesFilter_single, matchesField_eq, matchesField_ne.
Qed.

(** Property X5. With an array operand [$nin] is the complement of [$in]:
    both evaluations end, with opposite answers, and [$in] holds exactly
    when some element of the array is the document value under
    SameValueZero. *)
Theorem nin_operator_complements_in (document : value) (key : string)
    (l : list value) :
  exists b,
    matchesFilter document [(key, VObj {[ "$in" := VArr l ]})] = Ok b
    /\ matchesFilter document [(key, VObj {[ "$nin" := VArr l ]})] = Ok (negb b)
    /\ b = existsb (SameValueZero (get document key)) l.
Proof.
  exists (existsb (SameValueZero (get document key)) l).
  by rewrite !matchesFilter_single, matchesField_in, matchesField_nin.
Qed.

(** Property X6. [$in] and [$nin] call [includes] on their operand without
    looking at it first: an operand that is neither an array nor a string
    makes the evaluation throw a TypeError, on every document. *)
Theorem in_operator_throws_without_includes (document : value) (key op : string)
    (operand : value) :
  op = "$in" \/ op = "$nin" ->
  no_includes operand = true ->
  matchesFilter document [(key, VObj {[ op := operand ]})] = Throw TypeError.
Proof.
  intros Hop Hno. rewrite matchesFilter_single.
  unfold matchesField. rewrite !has_singleton.
  destruct Hop as [-> | ->]; simpl; rewrite member_singleton;
    by destruct operand.
Qed.

Lemma in_operator_on_alice :
  matchesFilter (VObj alice) [("age", VObj {[ "$in" := VNum (Num 30) ]})]
  = Throw TypeError
  /\ matchesFilter (VObj alice) [("age", VObj {[ "$nin" := VNull ]})]
     = Throw TypeError.
Proof.
  split; apply in_operator_throws_without_includes; auto.
Defined.

(** Property X7. On a document value and an operand that are both numbers,
    [$gt], [$gte], [$lt] and [$lte] are the four orderings of the
    integers. *)
Theorem ordering_operators_on_numbers (document : value) (key : string) (a b : Z) :
  get document key = VNum (Num a) ->
  matchesFilter document [(key, VObj {[ "$gt" := VNum (Num b) ]})]
  = Ok (b <? a)%Z
  /\ matchesFilter document [(key, VObj {[ "$gte" := VNum (Num b) ]})]
     = Ok (b <=? a)%Z
  /\ matchesFilter document [(key, VObj {[ "$lt" := VNum (Num b) ]})]
     = Ok (a <? b)%Z
  /\ matchesFilter document [(key, VObj {[ "$lte" := VNum (Num b) ]})]
     = Ok (a <=? b)%Z.
Proof.
  intros Hget. rewrite !matchesFilter_single, Hget.
  unfold matchesField. rewrite !has_singleton, !member_singleton. simpl.
  unfold le, lt, ge, gt. simpl.
  rewrite !(Z.leb_antisym). 
  repeat split; by destruct (_ <? _)%Z.
Qed.

Lemma ordering_operators_on_alice :
  matchesFilter (VObj alice) [("age", VObj {[ "$gt" := VNum (Num 30) ]})]
  = Ok false
  /\ matchesFilter (VObj alice) [("age", VObj {[ "$gte" := VNum (Num 30) ]})]
     = Ok true
  /\ matchesFilter (VObj alice) [("age", VObj {[ "$lt" := VNum (Num 30) ]})]
     = Ok false
  /\ matchesFilter (VObj alice) [("age", VObj {[ "$lte" := VNum (Num 30) ]})]
     = Ok true.
Proof.
  apply (ordering_operators_on_numbers (VObj alice) "age" 30 30). reflexivity.
Defined.

(** Property X8. The operators of one operator object are conjoined as
    well: [{key: {$gte: lo, $lte: hi}}] selects the documents whose number
    at [key] lies in the closed interval from [lo] to [hi]. *)
Theorem range_entry_selects_the_interval (document : value) (key : string)
    (a lo hi : Z) :
  get document key = VNum (Num a) ->
  matchesFilter document
    [(key, VObj (<["$gte" := VNum (Num lo)]> {[ "$lte" := VNum (Num hi) ]}))]
  = Ok ((lo <=? a)%Z && (a <=? hi)%Z).
Proof.
  intros Hget. rewrite matchesFilter_single, Hget.
  set (m := <["$gte" := VNum (Num lo)]> {[ "$lte" := VNum (Num hi) ]}).
  assert (Hm : forall k, m !! k
                         = if String.eqb k "$gte" then Some (VNum (Num lo))
                           else if String.eqb k "$lte" then Some (VNum (Num hi))
                           else None).
  { intros k. subst m.
    destruct (String.eqb_spec k "$gte") as [->|H1]; [by rewrite lookup_insert_eq|].
    rewrite lookup_insert_ne by done.
    destruct (String.eqb_spec k "$lte") as [->|H2];
      [by rewrite lookup_singleton_eq|].
    by rewrite lookup_singleton_ne. }
  unfold matchesField, has, member, property. rewrite !Hm. simpl.
  unfold le, lt, ge, gt. simpl.
  rewrite !(Z.leb_antisym).
  by destruct (a <? lo)%Z, (hi <? a)%Z.
Qed.

Lemma range_entry_on_alice :
  matchesFilter (VObj alice)
    [("age", VObj (<["$gte" := VNum (Num 18)]> {[ "$lte" := VNum (Num 30) ]}))]
  = Ok true.
Proof.
  apply (range_entry_selects_the_interval (VObj alice) "age" 30 18 30).
  reflexivity.
Defined.

(** Property X9. [$exists] reads its operand by truthiness and tests the
    document value against undefined only: with a truthy operand the
    documents whose value at the path is not undefined pass (a field that
    holds null counts as there), with a falsy operand the others do. *)
Theorem exists_operator_partitions (document : value) (key : string)
    (yes no : value) :
  ToBoolean yes = true -> ToBoolean no = false ->
  exists b,
    matchesFilter document [(key, VObj {[ "$exists" := yes ]})] = Ok b
    /\ matchesFilter document [(key, VObj {[ "$exists" := no ]})] = Ok (negb b)
    /\ (b = true <-> get document key <> VUndefined).
Proof.
  intros Hyes Hno.
  exists (negb (IsStrictlyEqual (get document key) VUndefined)).
  rewrite !matchesFilter_single, !matchesField_exists, Hyes, Hno.
  repeat split.
  - by destruct (IsStrictlyEqual _ _).
  - by destruct (get document key) as [| |?|[|?]|?|?|?].
  - by destruct (get document key) as [| |?|[|?]|?|?|?].
Qed.

Lemma exists_operator_on_alice :
  matchesFilter (VObj alice) [("email", VObj {[ "$exists" := VStr "no" ]})]
  = Ok false
  /\ matchesFilter (VObj alice) [("email", VObj {[ "$exists" := VNum (Num 0) ]})]
     = Ok true.
Proof.
  destruct (exists_operator_partitions (VObj alice) "email"
              (VStr "no") (VNum (Num 0)) eq_refl eq_refl) as (b & Hy & Hn & Hb).
  assert (E : b = false).
  { destruct b; [|reflexivity]. exfalso. by apply (proj1 Hb). }
  subst b. by split.
Defined.

End FilterProperties.

(* ===================================================================== *)
(** ** Further properties of the scans *)
(* ===================================================================== *)

Module CollectionFacts.
Import JS Lodash Fs ODModel Terms FilterTerms.
Import ScanFacts BulkFacts StoreFacts RecordFacts UpdateFacts.
Local Open Scope io_scope.


Lemma omap_nothing {A B} (f : A -> option B) (l : list A) :
  (forall x, x ∈ l -> f x = None) -> omap f l = [].
Proof.
  induction l as [|a l IH]; intros H; [reflexivity|].
  simpl. rewrite (H a) by (apply elem_of_cons; by left).
  apply IH. intros x Hx. apply H, elem_of_cons. by right.
Qed.

(** The loop of [findManyAndDelete] on any listing, whatever its outcome:
    only the file system changes, and an entry is either as it was or a
    selected file that is gone. *)
Lemma findManyAndDelete_loop_frame (query : ODFilter) (w : World)
    (names : list string) :
  forall fs r w1,
    findManyAndDelete_loop query names (with_files w fs) = (r, w1) ->
    exists fs',
      w1 = with_files w fs'
      /\ forall n, fs' !! n = fs !! n
                   \/ (fs' !! n = None /\ selects query n (fs !! n) = true).
Proof.
  induction names as [|name rest IH]; intros fs r w1; simpl.
  - intros [= _ <-]. exists fs. auto.
  - destruct (String_includes name ".DS_Store") eqn:Hds; [apply IH|].
    pose proof (scanned_true _ Hds) as Hsc.
    unfold bind at 1, readFile, join_path. simpl.
    destruct (fs !! name) as [[[v|]|]|] eqn:Hv; simpl;
      try (intros [= _ <-]; exists fs; auto).
    unfold bind at 1, lift. simpl. unfold bind at 1.
    destruct (matchesFilter v query) as [[|]|] eqn:Hb;
      try (intros [= _ <-]; exists fs; auto).
    + unfold bind at 1, unlink. simpl. rewrite Hv.
      change {| files := delete name fs; NODE_ENV := NODE_ENV w;
                nanoid := nanoid w; ids_drawn := ids_drawn w;
                clock := clock w; clock_reads := clock_reads w |}
        with (with_files w (delete name fs)).
      intros Hrun. destruct (IH _ _ _ Hrun) as (fs' & -> & Hfs').
      exists fs'. split; [reflexivity|]. intros n.
      destruct (decide (n = name)) as [->|Hne].
      * right. split.
        -- destruct (Hfs' name) as [H|[H _]]; [|exact H].
           by rewrite H, lookup_delete_eq.
        -- unfold selects. by rewrite Hsc, Hv, Hb.
      * destruct (Hfs' n) as [H|[H Hsel]].
        -- left. by rewrite H, lookup_delete_ne.
        -- right. split; [exact H|]. by rewrite lookup_delete_ne in Hsel.
    + unfold bind at 1, ret. apply IH.
Qed.



End CollectionFacts.

Module ScanProperties.
Import JS Lodash Fs ODModel Terms FilterTerms Examples.
Import ScanFacts BulkFacts StoreFacts RecordFacts UpdateFacts CollectionFacts.
Local Open Scope io_scope.







(** Property X13. On a collection whose scanned files can all be read,
    parsed and evaluated, [findManyAndDelete(query)] followed by
    [findMany(query)] finds nothing: the deletion succeeds and no document
    that is left passes the query. *)
Theorem findManyAndDelete_then_findMany_finds_nothing
    (query : ODFilter) (w : World) :
  scannable query (files w) = true ->
  exists w',
    findManyAndDelete query w = (Ok true, w')
    /\ findMany (Some query) w' = (Ok [], w').
Proof.
  intros Hs. destruct (findManyAndDelete_ok query w Hs) as (fs' & Hrun & Hfs').
  exists (with_files w fs'). split; [exact Hrun|].
  assert (Hleft : forall name e,
             fs' !! name = Some e ->
             files w !! name = Some e
             /\ selects query name (Some e) = false).
  { intros name e He. rewrite Hfs' in He.
    destruct (selects query name (files w !! name)) eqn:Hsel; [done|].
    by rewrite He in Hsel. }
  unfold findMany, bind at 1, readdir, try_catch.
  rewrite findMany_loop_ok.
  - simpl. rewrite omap_nothing; [reflexivity|].
    intros name _. unfold kept, document_at.
    destruct (scanned name) eqn:Hsc; [|reflexivity].
    destruct (fs' !! name) as [[[v|]|]|] eqn:He; try reflexivity.
    destruct (Hleft _ _ He) as [_ Hsel]. unfold selects in Hsel.
    rewrite Hsc in Hsel. simpl in Hsel.
    by destruct (matchesFilter v query) as [[|]|].
  - intros name Hin Hsc. simpl in *. apply readdir_elem in Hin as [e He].
    destruct (Hleft _ _ He) as [Hw _].
    destruct (scannable_spec _ _ Hs name e Hw Hsc) as (v & b & -> & Hb).
    by exists v, b.
Qed.

Lemma findManyAndDelete_then_findMany_on_people :
  exists w',
    findManyAndDelete older_than_26 (world people None) = (Ok true, w')
    /\ findMany (Some older_than_26) w' = (Ok [], w').
Proof.
  apply (findManyAndDelete_then_findMany_finds_nothing older_than_26
           (world people None)).
  vm_compute. reflexivity.
Defined.

End ScanProperties.

(* ===================================================================== *)
(** ** Further properties of single records *)
(* ===================================================================== *)

Module RecordLaws.
Import JS Lodash Fs ODModel Terms FilterTerms.
Import ScanFacts BulkFacts StoreFacts RecordFacts UpdateFacts CollectionFacts.
Local Open Scope io_scope.

Lemma countDocuments_run (w : World) :
  countDocuments w = (Ok (size (files w)), w).
Proof.
  unfold countDocuments, bind, readdir, ret.
  by rewrite length_fmap, length_map_to_list.
Qed.

(** [findByIdAndDelete] of lines 161-175, in full. *)
Lemma guarded_findByIdAndDelete_run (id : string) (w : World) :
  Guarded.findByIdAndDelete id w
  = if ToBoolean (found (VStr id) (files w))
    then (Ok true, with_files w (delete (json_path (VStr id)) (files w)))
    else (Ok false, w).
Proof.
  unfold Guarded.findByIdAndDelete, try_catch, bind at 1.
  rewrite findOne_total.
  destruct (ToBoolean (found (VStr id) (files w))) eqn:E; [|reflexivity].
  apply found_truthy in E. unfold bind, unlink, ret. by rewrite E.
Qed.

(** [findByIdAndDelete] of lines 500-514, in full. *)
Lemma documented_findByIdAndDelete_run (id : string) (w : World) :
  Documented.findByIdAndDelete id w
  = if ToBoolean (found (VStr id) (files w))
    then (Ok (found (VStr id) (files w)),
          with_files w (delete (json_path (VStr id)) (files w)))
    else (Ok VNull, w).
Proof.
  unfold Documented.findByIdAndDelete, try_catch, bind at 1.
  rewrite findOne_total.
  destruct (ToBoolean (found (VStr id) (files w))) eqn:E; [|reflexivity].
  apply found_truthy in E. unfold bind, unlink, ret. by rewrite E.
Qed.

Lemma found_truthy_id (id : value) (fs : gmap string entry) :
  ToBoolean (found id fs) = true -> ToBoolean id = true.
Proof. unfold found. by destruct (ToBoolean id). Qed.

(** One turn of the loop of [insertMany]. *)
Lemma insertMany_loop_cons (document : obj) (rest : list obj)
    (acc : list value) (w : World) :
  let id := assigned_id document w in
  let stored :=
    stamped document id (clock w (clock_reads w)) (clock w (S (clock_reads w))) in
  let drawn := if ToBoolean (member (VObj document) "id")
               then ids_drawn w else S (ids_drawn w) in
  insertMany_loop (document :: rest) acc w
  = match files w !! json_path id with
    | Some Directory =>
        (Throw EISDIR, advanced w (files w) drawn (S (S (clock_reads w))))
    | _ =>
        insertMany_loop rest (acc ++ [VObj stored])
          (advanced w (<[json_path id := File (JSON_stringify (VObj stored))]>
                         (files w))
                    drawn (S (S (clock_reads w))))
    end.
Proof.
  unfold assigned_id, stamped. simpl.
  destruct (ToBoolean (member (VObj document) "id"));
    unfold bind, ret, generateId, now, writeFile, advanced; simpl;
    match goal with
    | |- context [files w !! ?k] => destruct (files w !! k) as [[|]|]
    end; reflexivity.
Qed.

(** The array being filled only grows at its end. *)
Lemma insertMany_loop_acc (documents : list obj) :
  forall acc w,
    insertMany_loop documents acc w
    = match insertMany_loop documents [] w with
      | (Ok l, w') => (Ok (acc ++ l), w')
      | (Throw e, w') => (Throw e, w')
      end.
Proof.
  induction documents as [|document rest IH]; intros acc w.
  - simpl. unfold ret. by rewrite app_nil_r.
  - rewrite !insertMany_loop_cons.
    destruct (files w !! json_path (assigned_id document w)) as [[|]|];
      try reflexivity;
      rewrite (IH (acc ++ _)), (IH ([] ++ _));
      match goal with
      | |- context [insertMany_loop rest [] ?w1] =>
          destruct (insertMany_loop rest [] w1) as [[l|e] w2]
      end; simpl; try reflexivity; by rewrite <- app_assoc.
Qed.

Lemma droppable_spec (fs : gmap string entry) :
  droppable fs = true ->
  forall name e, fs !! name = Some e -> scanned name = true ->
    exists t, e = File t.
Proof.
  unfold droppable. rewrite forallb_forall. intros Hall name e He Hsc.
  specialize (Hall (name, e)). simpl in Hall. rewrite Hsc in Hall.
  assert (Hin : In (name, e) (map_to_list fs)).
  { apply list_elem_of_In. by apply elem_of_map_to_list. }
  specialize (Hall Hin). destruct e as [t|]; [eauto|discriminate].
Qed.

(** The loop of [dropCollection] over names listed once each, none of them
    a scanned directory: every scanned name is gone. *)
Lemma dropCollection_loop_ok (w : World) (names : list string) :
  forall fs,
    NoDup names ->
    (forall name, name ∈ names -> scanned name = true ->
       exists t, fs !! name = Some (File t)) ->
    exists fs',
      Guarded.dropCollection_loop names (with_files w fs)
      = (Ok tt, with_files w fs')
      /\ forall n, fs' !! n = if decide (n ∈ names)
                              then (if scanned n then None else fs !! n)
                              else fs !! n.
Proof.
  induction names as [|name rest IH]; intros fs Hnd Hall.
  - exists fs. split; [reflexivity|]. intros n.
    destruct (decide (n ∈ [])) as [H|_]; [|reflexivity].
    by apply elem_of_nil in H.
  - apply NoDup_cons in Hnd as [Hfresh Hnd].
    assert (Hhere : name ∈ name :: rest) by (apply elem_of_cons; by left).
    simpl. destruct (String_includes name ".DS_Store") eqn:Hds.
    + destruct (IH fs Hnd) as (fs' & Hrun & Hfs').
      { intros n Hn. apply Hall, elem_of_cons. by right. }
      exists fs'. split; [exact Hrun|]. intros n. rewrite Hfs'.
      destruct (decide (n = name)) as [->|Hne].
      * rewrite (decide_False (P := name ∈ rest)) by done.
        rewrite (decide_True (P := name ∈ name :: rest)) by done.
        by rewrite (scanned_false _ Hds).
      * destruct (decide (n ∈ rest)) as [Hin|Hin].
        -- rewrite decide_True; [done|]. apply elem_of_cons. by right.
        -- rewrite decide_False; [done|].
           intros [?|?]%elem_of_cons; done.
    + pose proof (scanned_true _ Hds) as Hsc.
      destruct (Hall name Hhere Hsc) as (t & Ht).
      destruct (IH (delete name fs) Hnd) as (fs' & Hrun & Hfs').
      { intros n Hn Hscn. rewrite lookup_delete_ne by (intros ->; done).
        apply Hall; [|done]. apply elem_of_cons. by right. }
      exists fs'. split.
      * unfold bind at 1, unlink, join_path. simpl. rewrite Ht. exact Hrun.
      * intros n. rewrite Hfs'.
        destruct (decide (n = name)) as [->|Hne].
        -- rewrite (decide_False (P := name ∈ rest)) by done.
           rewrite (decide_True (P := name ∈ name :: rest)) by done.
           by rewrite Hsc, lookup_delete_eq.
        -- rewrite lookup_delete_ne by done.
           destruct (decide (n ∈ rest)) as [Hin|Hin].
           ++ rewrite decide_True; [done|]. apply elem_of_cons. by right.
           ++ rewrite decide_False; [done|].
              intros [?|?]%elem_of_cons; done.
Qed.

(** A listing splits into the documents and the artifacts. *)
Lemma length_documents (fs : gmap string entry) (names : list string) :
  (forall name, name ∈ names -> scanned name = true ->
     exists v, fs !! name = Some (File (Parses v))) ->
  length names
  = length (omap (document_at fs) names)
    + length (List.filter (fun name => negb (scanned name)) names).
Proof.
  induction names as [|name rest IH]; intros Hall; [reflexivity|].
  assert (Hrest : length rest
                  = length (omap (document_at fs) rest)
                    + length (List.filter (fun name => negb (scanned name)) rest)).
  { apply IH. intros n Hn. apply Hall, elem_of_cons. by right. }
  simpl. unfold document_at at 1.
  destruct (scanned name) eqn:Hsc; simpl.
  - destruct (Hall name) as [v Hv]; [apply elem_of_cons; by left|done|].
    rewrite Hv. simpl. by f_equal.
  - etrans; [exact (f_equal S Hrest)|]. symmetry. apply Nat.add_succ_r.
Qed.

End RecordLaws.

Module RecordProperties.
Import JS Lodash Fs ODModel Terms FilterTerms Examples MoreExamples.
Import ScanFacts BulkFacts StoreFacts RecordFacts UpdateFacts.
Import CollectionFacts RecordLaws.
Local Open Scope io_scope.

(** Property X14. For an id without a path separator, so that
    [<id>.json] names an entry of the collection directory,
    [findByIdAndDelete(id)] never throws, in either edition of part_000,
    and the two leave the same world: when [findOne(id)] finds
    a truthy document, the file [<id>.json] is removed, every other entry is
    as it was, [findOne(id)] yields null afterwards, and the answer is true
    (lines 161-175) or the document (lines 500-514); otherwise nothing
    changes and the answer is false or null. *)
Theorem findByIdAndDelete_in_both_editions (id : string) (w : World) :
  plain id = true ->
  let existing := found (VStr id) (files w) in
  exists w',
    Guarded.findByIdAndDelete id w = (Ok (ToBoolean existing), w')
    /\ Documented.findByIdAndDelete id w
       = (Ok (if ToBoolean existing then existing else VNull), w')
    /\ (ToBoolean existing = true ->
        w' = with_files w (delete (json_path (VStr id)) (files w))
        /\ findOne (VStr id) w' = (Ok VNull, w')
        /\ forall name, name <> json_path (VStr id) ->
                        files w' !! name = files w !! name)
    /\ (ToBoolean existing = false -> w' = w).
Proof.
  intros _ existing.
  rewrite guarded_findByIdAndDelete_run, documented_findByIdAndDelete_run.
  fold existing. destruct (ToBoolean existing) eqn:E.
  - eexists. split; [reflexivity|]. split; [reflexivity|].
    split; [|discriminate]. intros _. split; [reflexivity|]. split.
    + rewrite findOne_total. unfold found. simpl.
      rewrite lookup_delete_eq. by destruct (negb _).
    + intros name Hne. simpl. by rewrite lookup_delete_ne.
  - exists w. split; [reflexivity|]. split; [reflexivity|]. by split.
Qed.

Lemma findByIdAndDelete_on_people :
  exists w',
    Guarded.findByIdAndDelete "a" (world people None) = (Ok true, w')
    /\ Documented.findByIdAndDelete "a" (world people None)
       = (Ok (VObj alice), w')
    /\ findOne (VStr "a") w' = (Ok VNull, w')
    /\ files w' !! "b.json" = Some (File (Parses (VObj bob))).
Proof.
  destruct (findByIdAndDelete_in_both_editions "a" (world people None) eq_refl)
    as (w' & Hg & Hd & Hyes & _).
  destruct (Hyes eq_refl) as (_ & Hfind & Hframe).
  exists w'. split; [exact Hg|]. split; [exact Hd|]. split; [exact Hfind|].
  rewrite Hframe by discriminate. reflexivity.
Defined.

(** Property X15. A file [<id>.json] that does not parse is out of reach of
    the methods of part_000 that work by id or by query: [findByIdAndDelete]
    answers false (or null) and [findByIdAndUpdate] null, leaving it in
    place; [findMany] throws because of it; and whatever
    [findManyAndDelete] does before it throws, the file is still there.
    [deleteOne] of src/src/model.ts does remove it. *)
Theorem unparseable_file_is_out_of_reach (id : string) (w : World) :
  files w !! json_path (VStr id) = Some (File Garbled) ->
  scanned (json_path (VStr id)) = true ->
  Guarded.findByIdAndDelete id w = (Ok false, w)
  /\ Documented.findByIdAndDelete id w = (Ok VNull, w)
  /\ (forall update,
        Guarded.findByIdAndUpdate id update w = (Ok VNull, w)
        /\ Documented.findByIdAndUpdate id update w = (Ok VNull, w))
  /\ (exists err,
        findMany None w
        = (Throw (Error "Error finding documents" (Some err)), w))
  /\ (forall query r w',
        findManyAndDelete query w = (r, w') ->
        files w' !! json_path (VStr id) = Some (File Garbled))
  /\ Legacy.deleteOne id w
     = (Ok tt, with_files w (delete (json_path (VStr id)) (files w))).
Proof.
  intros Hfile Hsc.
  assert (Hfound : found (VStr id) (files w) = VNull).
  { unfold found. rewrite Hfile. by destruct (ToBoolean _). }
  split; [by rewrite guarded_findByIdAndDelete_run, Hfound|].
  split; [by rewrite documented_findByIdAndDelete_run, Hfound|].
  split.
  { intros update.
    rewrite guarded_findByIdAndUpdate_run, documented_findByIdAndUpdate_run.
    simpl. by rewrite Hfound. }
  split.
  { apply (findMany_throws None w (json_path (VStr id)) (File Garbled));
      [done|done|by right]. }
  split.
  - intros query r w'.
    unfold findManyAndDelete, bind at 1, readdir, try_catch. simpl.
    pose proof (findManyAndDelete_loop_frame query w
                  (map_to_list (files w)).*1 (files w)) as Hframe.
    rewrite with_files_id in Hframe. unfold bind at 1.
    destruct (findManyAndDelete_loop query _ w) as [[[]|e] w1] eqn:Hrun;
      intros [= _ <-];
      destruct (Hframe _ _ eq_refl) as (fs' & -> & Hfs'); simpl;
      (destruct (Hfs' (json_path (VStr id))) as [->|[_ Hsel]]; [done|]);
      rewrite Hfile in Hsel; unfold selects in Hsel;
      by rewrite andb_false_r in Hsel.
  - unfold Legacy.deleteOne, try_catch, unlink. by rewrite Hfile.
Qed.

Lemma unparseable_file_in_damaged :
  Guarded.findByIdAndDelete "c" (world damaged None)
  = (Ok false, world damaged None)
  /\ Legacy.deleteOne "c" (world damaged None)
     = (Ok tt, with_files (world damaged None) (delete "c.json" damaged)).
Proof.
  destruct (unparseable_file_is_out_of_reach "c" (world damaged None))
    as (Hg & _ & _ & _ & _ & Hl).
  - vm_compute. reflexivity.
  - reflexivity.
  - split; [exact Hg|exact Hl].
Defined.

(** Property X16. [insertMany] is [insertOne] repeated, in the order of the
    array and each on the world the one before left: the first document is
    inserted as [insertOne(document)] inserts it and the rest follows. When
    one insertion fails, [insertMany] throws its own error around the cause
    and the documents written before the failure stay in the collection. *)
Theorem insertMany_is_insertOne_repeated :
  (forall w, insertMany [] w = (Ok [], w))
  /\ (forall document rest w inserted w1,
        insertOne document None w = (Ok inserted, w1) ->
        insertMany (document :: rest) w
        = match insertMany rest w1 with
          | (Ok l, w2) => (Ok (inserted :: l), w2)
          | (Throw e, w2) => (Throw e, w2)
          end)
  /\ (forall document rest w e w1,
        insertOne document None w = (Throw e, w1) ->
        exists cause,
          e = Error "Error inserting document" (Some cause)
          /\ insertMany (document :: rest) w
             = (Throw (Error "Error inserting documents" (Some cause)), w1)).
Proof.
  split; [reflexivity|]. split.
  - intros document rest w inserted w1. rewrite insertOne_run.
    unfold insertMany, try_catch. rewrite insertMany_loop_cons.
    unfold target.
    destruct (files w !! json_path (assigned_id document w)) as [[|]|];
      try discriminate; intros [= <- <-];
      rewrite insertMany_loop_acc;
      match goal with
      | |- context [insertMany_loop rest [] ?w1] =>
          destruct (insertMany_loop rest [] w1) as [[l|e] w2]
      end; reflexivity.
  - intros document rest w e w1. rewrite insertOne_run.
    unfold insertMany, try_catch. rewrite insertMany_loop_cons.
    unfold target.
    destruct (files w !! json_path (assigned_id document w)) as [[|]|];
      try discriminate; intros [= <- <-].
    exists EISDIR. by split.
Qed.

Lemma insertMany_into_crowded :
  exists w1 w2,
    insertMany [carol; dave] (world crowded None)
    = (Throw (Error "Error inserting documents" (Some EISDIR)), w2)
    /\ insertOne carol None (world crowded None)
       = (Ok (VObj (stamped carol (VStr (ids 0)) (ticks 0) (ticks 1))), w1)
    /\ files w2 !! json_path (VStr (ids 0))
       = Some (File (JSON_stringify
                       (VObj (stamped carol (VStr (ids 0)) (ticks 0) (ticks 1))))).
Proof.
  destruct insertMany_is_insertOne_repeated as (_ & Hcons & Hfail).
  set (w1 := snd (insertOne carol None (world crowded None))).
  set (w2 := snd (insertOne dave None w1)).
  assert (H1 : insertOne carol None (world crowded None)
               = (Ok (VObj (stamped carol (VStr (ids 0)) (ticks 0) (ticks 1))), w1))
    by (vm_compute; reflexivity).
  assert (H2 : insertOne dave None w1
               = (Throw (Error "Error inserting document" (Some EISDIR)), w2))
    by (vm_compute; reflexivity).
  exists w1, w2. split; [|split; [exact H1|vm_compute; reflexivity]].
  rewrite (Hcons carol [dave] _ _ _ H1).
  destruct (Hfail dave [] w1 _ w2 H2) as (cause & [= <-] & ->).
  reflexivity.
Defined.

(** Property X17. Let the id given to the document, and the file name
    when there is one, be without a path separator, so that the target name
    is an entry of the collection directory. A call of [insertOne] that
    returns has written one file and nothing else: the file of the returned
    document under the target name. Every other entry is as it was, and [countDocuments()] is one
    more than before when the name was free and the same as before when it
    was taken: a document already stored under that name is replaced
    without notice. *)
Theorem insertOne_writes_one_file (document : obj) (fileName : option string)
    (w w' : World) (inserted : value) :
  plain_target fileName (assigned_id document w) = true ->
  insertOne document fileName w = (Ok inserted, w') ->
  let name := target fileName (assigned_id document w) in
  files w' = <[name := File (JSON_stringify inserted)]> (files w)
  /\ (forall other, other <> name -> files w' !! other = files w !! other)
  /\ exists n,
       countDocuments w = (Ok n, w)
       /\ countDocuments w'
          = (Ok (match files w !! name with
                 | Some _ => n
                 | None => S n
                 end), w').
Proof.
  intros _ Hrun name. rewrite insertOne_run in Hrun. fold name in Hrun.
  assert (Hfiles : files w' = <[name := File (JSON_stringify inserted)]> (files w)).
  { destruct (files w !! name) as [[|]|]; try discriminate;
      by injection Hrun as <- <-. }
  split; [exact Hfiles|]. split.
  - intros other Hne. by rewrite Hfiles, lookup_insert_ne.
  - exists (size (files w)). rewrite !countDocuments_run. split; [reflexivity|].
    rewrite Hfiles, map_size_insert. by destruct (files w !! name).
Qed.

Lemma insertOne_over_alice :
  let run := insertOne alice None (world people None) in
  countDocuments (world people None) = (Ok 3, world people None)
  /\ countDocuments (snd run) = (Ok 3, snd run)
  /\ files (snd run) !! "b.json" = Some (File (Parses (VObj bob))).
Proof.
  intros run.
  destruct (insertOne_writes_one_file alice None (world people None) (snd run)
              (VObj (stamped alice (VStr "a") (ticks 0) (ticks 1))))
    as (_ & Hframe & n & Hbefore & Hafter).
  { vm_compute. reflexivity. }
  { vm_compute. reflexivity. }
  assert (Hcount : countDocuments (world people None) = (Ok 3, world people None))
    by (vm_compute; reflexivity).
  rewrite Hcount in Hbefore. injection Hbefore as <-.
  split; [reflexivity|]. split; [exact Hafter|].
  rewrite Hframe by discriminate. reflexivity.
Defined.

(** Property X18. When [insertOne(document, fileName)] is given a file name
    whose path is not the one of the id, both without a path separator, the document is stored under the
    file name only: [findOne] on the id of the returned document yields
    null (unless a file of that id was there before), and [findOne] on the
    file name yields the document, whose [id] is another. *)
Theorem insertOne_under_another_file_name (document : obj) (fileName : string)
    (w w' : World) (inserted : value) :
  plain fileName = true ->
  plain (ToString (assigned_id document w)) = true ->
  fileName <> "" ->
  json_path (VStr fileName) <> json_path (assigned_id document w) ->
  files w !! json_path (assigned_id document w) = None ->
  insertOne document (Some fileName) w = (Ok inserted, w') ->
  member inserted "id" = assigned_id document w
  /\ findOne (member inserted "id") w' = (Ok VNull, w')
  /\ findOne (VStr fileName) w' = (Ok (json_clone inserted), w').
Proof.
  intros _ _ Hname Hpath Hfree Hrun. rewrite insertOne_run in Hrun.
  assert (Htarget : target (Some fileName) (assigned_id document w)
                    = json_path (VStr fileName)).
  { unfold target. simpl. by destruct fileName. }
  rewrite Htarget in Hrun.
  assert (Hid : member inserted "id" = assigned_id document w
                /\ files w' = <[json_path (VStr fileName)
                                  := File (JSON_stringify inserted)]> (files w)).
  { destruct (files w !! json_path (VStr fileName)) as [[|]|];
      try discriminate; injection Hrun as <- <-;
      (split; [|reflexivity]); unfold member, stamped; simpl;
      do 2 rewrite lookup_insert_ne by done; by rewrite lookup_insert_eq. }
  destruct Hid as [Hid Hfiles]. split; [exact Hid|]. rewrite Hid. split.
  - rewrite findOne_total. unfold found.
    destruct (ToBoolean (assigned_id document w)); [|reflexivity].
    by rewrite Hfiles, lookup_insert_ne, Hfree.
  - rewrite findOne_total. unfold found.
    replace (ToBoolean (VStr fileName)) with true by by destruct fileName.
    by rewrite Hfiles, lookup_insert_eq.
Qed.

Lemma insertOne_carol_as_guest :
  let run := insertOne carol (Some "guest") (world people None) in
  findOne (VStr (ids 0)) (snd run) = (Ok VNull, snd run)
  /\ findOne (VStr "guest") (snd run)
     = (Ok (VObj (stamped carol (VStr (ids 0)) (ticks 0) (ticks 1))), snd run).
Proof.
  intros run.
  destruct (insertOne_under_another_file_name carol "guest" (world people None)
              (snd run) (VObj (stamped carol (VStr (ids 0)) (ticks 0) (ticks 1))))
    as (Hid & Hnull & Hguest).
  - reflexivity.
  - vm_compute. reflexivity.
  - discriminate.
  - vm_compute. discriminate.
  - vm_compute. reflexivity.
  - vm_compute. reflexivity.
  - split.
    + exact Hnull.
    + rewrite Hguest. vm_compute. reflexivity.
Defined.

(** Property X19. [countDocuments()] counts the entries of the directory,
    not the documents: on a collection whose scanned files all parse it is
    the number of documents [findMany()] returns plus the number of
    [.DS_Store] artifacts. *)
Theorem countDocuments_counts_the_artifacts_too (w : World) :
  scannable [] (files w) = true ->
  exists found_,
    findMany None w = (Ok found_, w)
    /\ countDocuments w
       = (Ok (length found_ + length (artifacts (files w))), w).
Proof.
  intros Hs. exists (documents (files w)). split.
  - unfold findMany, bind at 1, readdir, try_catch.
    rewrite findMany_loop_ok.
    + simpl. unfold documents. f_equal. f_equal.
      apply omap_agree. intros name _. unfold kept.
      by destruct (document_at (files w) name).
    + intros name Hin Hsc.
      destruct (scannable_listing _ _ Hs name Hin Hsc) as (v & b & Hv & _).
      by exists v, b.
  - unfold countDocuments, bind, readdir, ret, documents, artifacts.
    f_equal. f_equal. apply length_documents. intros name Hin Hsc.
    destruct (scannable_listing _ _ Hs name Hin Hsc) as (v & b & Hv & _).
    by exists v.
Qed.

Lemma countDocuments_on_people :
  exists found_,
    findMany None (world people None) = (Ok found_, world people None)
    /\ length found_ = 2
    /\ countDocuments (world people None) = (Ok 3, world people None).
Proof.
  destruct (countDocuments_counts_the_artifacts_too (world people None))
    as (found_ & Hfind & Hcount).
  { vm_compute. reflexivity. }
  exists found_. split; [exact Hfind|].
  assert (Hlen : length found_ = 2).
  { change (length found_)
      with (match fst (Ok found_, world people None) with
            | Ok l => length l
            | Throw _ => 0
            end).
    rewrite <- Hfind. vm_compute. reflexivity. }
  split; [exact Hlen|]. rewrite Hcount, Hlen. reflexivity.
Defined.

(** Property X20. Outside production, on a collection in which no scanned
    entry is a directory, [dropCollection()] returns true and has removed
    every scanned entry, parseable or not; the [.DS_Store] artifacts stay,
    nothing else changes, and [findMany()] then returns the empty array. *)
Theorem dropCollection_empties_the_collection (w : World) :
  NODE_ENV w <> Some "production" ->
  droppable (files w) = true ->
  exists w',
    Guarded.dropCollection w = (Ok true, w')
    /\ w' = with_files w (files w')
    /\ (forall name, files w' !! name = if scanned name then None
                                        else files w !! name)
    /\ findMany None w' = (Ok [], w').
Proof.
  intros Henv Hdrop.
  destruct (dropCollection_loop_ok w (map_to_list (files w)).*1 (files w)
              (readdir_NoDup _)) as (fs' & Hrun & Hfs').
  { intros name Hin Hsc. apply readdir_elem in Hin as [e He].
    destruct (droppable_spec _ Hdrop name e He Hsc) as [t ->]. eauto. }
  rewrite with_files_id in Hrun.
  assert (Hleft : forall name, fs' !! name = if scanned name then None
                                             else files w !! name).
  { intros name. rewrite Hfs'.
    destruct (decide (name ∈ (map_to_list (files w)).*1)) as [|Hout]; [done|].
    destruct (files w !! name) as [e|] eqn:He.
    - exfalso. apply Hout, readdir_elem. eauto.
    - by destruct (scanned name). }
  exists (with_files w fs'). split; [|split; [reflexivity|split; [exact Hleft|]]].
  - unfold Guarded.dropCollection.
    assert (Hgo : (try (files <- readdir ;;
                        Guarded.dropCollection_loop files ;;; ret true)
                   catch (fun error =>
                            throw (Error "Error dropping collection" (Some error)))) w
                  = (Ok true, with_files w fs')).
    { unfold try_catch, bind at 1, readdir. unfold bind at 1. by rewrite Hrun. }
    destruct (NODE_ENV w) as [env|]; [|exact Hgo].
    destruct (String.eqb_spec env "production") as [->|Hne]; [done|].
    repeat (destruct env as [|[[] [] [] [] [] [] [] []] env]; try exact Hgo);
      done.
  - unfold findMany, bind at 1, readdir, try_catch.
    rewrite findMany_loop_ok.
    + simpl. rewrite omap_nothing; [reflexivity|].
      intros name _. unfold kept, document_at.
      destruct (scanned name) eqn:Hsc; [|reflexivity].
      by rewrite Hleft, Hsc.
    + intros name Hin Hsc. simpl in Hin. apply readdir_elem in Hin as [e He].
      by rewrite Hleft, Hsc in He.
Qed.

Lemma dropCollection_on_damaged :
  exists w',
    Guarded.dropCollection (world damaged (Some "test")) = (Ok true, w')
    /\ files w' !! "c.json" = None
    /\ files w' !! "a.json" = None
    /\ files w' !! ".DS_Store" = Some (File Garbled)
    /\ findMany None w' = (Ok [], w').
Proof.
  destruct (dropCollection_empties_the_collection (world damaged (Some "test")))
    as (w' & Hrun & _ & Hleft & Hfind).
  - discriminate.
  - vm_compute. reflexivity.
  - exists w'. split; [exact Hrun|]. rewrite !Hleft. by repeat split.
Defined.

(** Property X21. In both editions of part_000, when [findByIdAndUpdate]
    returns a document, [findOne] on the same id then yields what a trip
    through the file makes of that document: the same fields, less those
    holding undefined. *)
Theorem findByIdAndUpdate_then_findOne (id : string) (update : obj) (w : World) :
  (forall data w',
     Guarded.findByIdAndUpdate id update w = (Ok (VObj data), w') ->
     findOne (VStr id) w' = (Ok (json_clone (VObj data)), w'))
  /\ (forall data w',
        Documented.findByIdAndUpdate id update w = (Ok (VObj data), w') ->
        findOne (VStr id) w' = (Ok (json_clone (VObj data)), w')).
Proof.
  split; intros data w';
    [rewrite guarded_findByIdAndUpdate_run
    |rewrite documented_findByIdAndUpdate_run]; simpl;
    (destruct (ToBoolean (found (VStr id) (files w))) eqn:E; [|discriminate]);
    apply found_truthy_id in E; intros [= <- <-];
    rewrite findOne_total; unfold found; rewrite E; simpl;
    by rewrite lookup_insert_eq.
Qed.

Lemma findByIdAndUpdate_then_findOne_on_people :
  let run := Guarded.findByIdAndUpdate "a" birthday (world people None) in
  findOne (VStr "a") (snd run)
  = (Ok (VObj (replaced birthday (VObj alice) (ticks 0))), snd run).
Proof.
  intros run.
  destruct (findByIdAndUpdate_then_findOne "a" birthday (world people None))
    as [Hg _].
  rewrite (Hg (replaced birthday (VObj alice) (ticks 0)) (snd run)).
  - vm_compute. reflexivity.
  - vm_compute. reflexivity.
Defined.

End RecordProperties.

(* ===================================================================== *)
(** ** The edition of src/src/model.ts *)
(* ===================================================================== *)

Module LegacyLaws.
Import JS Lodash Fs ODModel Terms FilterTerms.
Import ScanFacts BulkFacts StoreFacts RecordFacts UpdateFacts FilterLaws.
Local Open Scope io_scope.

Lemma json_path_ToString (id : value) :
  json_path (VStr (ToString id)) = json_path id.
Proof. reflexivity. Qed.

(** [insertOne] of src/src/model.ts, in full. *)
Lemma legacy_insertOne_run (document : obj) (w : World) :
  let id := assigned_id document w in
  let drawn := if ToBoolean (member (VObj document) "id")
               then ids_drawn w else S (ids_drawn w) in
  Legacy.insertOne document w
  = match files w !! json_path id with
    | Some Directory =>
        (Throw (Error "Error inserting document" (Some EISDIR)),
         advanced w (files w) drawn (clock_reads w))
    | _ =>
        (Ok id,
         advanced w (<[json_path id := File (JSON_stringify (VObj document))]>
                       (files w))
                  drawn (clock_reads w))
    end.
Proof.
  unfold Legacy.insertOne, assigned_id.
  destruct (ToBoolean (member (VObj document) "id")); simpl;
    unfold bind, ret, generateId, try_catch, writeFile, throw, advanced; simpl;
    match goal with
    | |- context [files w !! ?k] => destruct (files w !! k) as [[|]|]
    end; try reflexivity; by destruct w.
Qed.


(** On a filter of literals the evaluator of part_000 and the loop of
    src/src/model.ts give the same answer. *)
Lemma matchesFilter_literal (document : value) (query : ODFilter) :
  literal_filter query = true ->
  matchesFilter document query = Ok (Legacy.matchesAll document query).
Proof.
  induction query as [|[key expected] query IH]; [reflexivity|].
  simpl. intros [Hx Hq]%andb_true_iff. apply negb_true_iff in Hx.
  rewrite (matchesField_literal _ _ Hx).
  destruct (IsStrictlyEqual (get document key) expected); simpl; auto.
Qed.

Lemma find_loop_findMany_loop (query : ODFilter) (names : list string) :
  literal_filter query = true ->
  Forall (fun name => scanned name = true) names ->
  forall results w,
    Legacy.find_loop query names results w
    = findMany_loop (Some query) names results w.
Proof.
  intros Hq. induction names as [|name rest IH]; intros Hall results w;
    [reflexivity|].
  apply Forall_cons in Hall as [Hsc Hall]. simpl.
  unfold scanned in Hsc. apply negb_true_iff in Hsc. rewrite Hsc.
  unfold bind, readFile, join_path, lift.
  destruct (files w !! name) as [[[v|]|]|]; simpl; try reflexivity.
  rewrite (matchesFilter_literal v query Hq).
  destruct (Legacy.matchesAll v query); by apply IH.
Qed.

Lemma updateMany_loop_findManyAndUpdate_loop (query : ODFilter) (update : obj)
    (names : list string) :
  literal_filter query = true ->
  Forall (fun name => scanned name = true) names ->
  forall acc w,
    Legacy.updateMany_loop query update names w
    = match findManyAndUpdate_loop query update names acc w with
      | (Ok _, w') => (Ok tt, w')
      | (Throw e, w') => (Throw e, w')
      end.
Proof.
  intros Hq. induction names as [|name rest IH]; intros Hall acc w;
    [reflexivity|].
  apply Forall_cons in Hall as [Hsc Hall]. simpl.
  unfold scanned in Hsc. apply negb_true_iff in Hsc. rewrite Hsc.
  unfold bind, readFile, join_path, lift.
  destruct (files w !! name) as [[[v|]|]|] eqn:Hv; simpl; try reflexivity.
  rewrite (matchesFilter_literal v query Hq).
  destruct (Legacy.matchesAll v query).
  - unfold writeFile. rewrite Hv. by apply IH.
  - unfold ret. by apply IH.
Qed.

Lemma artifacts_none (fs : gmap string entry) :
  artifacts fs = [] ->
  Forall (fun name => scanned name = true) (map_to_list fs).*1.
Proof.
  unfold artifacts. intros H. apply Forall_forall. intros name Hin.
  destruct (scanned name) eqn:Hsc; [reflexivity|].
  assert (Hmem : In name (List.filter (fun name => negb (scanned name))
                            (map_to_list fs).*1)).
  { apply filter_In. split; [by apply list_elem_of_In|by rewrite Hsc]. }
  rewrite H in Hmem. destruct Hmem.
Qed.

End LegacyLaws.

Module LegacyProperties.
Import JS Lodash Fs ODModel Terms FilterTerms Examples MoreExamples.
Import ScanFacts BulkFacts StoreFacts RecordFacts UpdateFacts FilterLaws.
Import LegacyLaws.
Local Open Scope io_scope.

(** Property X22. In src/src/model.ts, [insertOne(document)] returns the id
    (the document's own when truthy, a generated one otherwise) and stores
    the document as it was given: [findOne] on the returned id yields the
    document after its trip through the file, the clock is not read, and a
    document given without an [id] is stored without one. *)
Theorem legacy_insertOne_then_findOne (document : obj) (w w' : World) (id : value) :
  Legacy.insertOne document w = (Ok id, w') ->
  id = assigned_id document w
  /\ Legacy.findOne (ToString id) w' = (Ok (json_clone (VObj document)), w')
  /\ clock_reads w' = clock_reads w
  /\ (document !! "id" = None ->
      exists stored, json_clone (VObj document) = VObj stored
                     /\ stored !! "id" = None).
Proof.
  intros Hrun. rewrite legacy_insertOne_run in Hrun.
  assert (Hdone : id = assigned_id document w
                  /\ w' = advanced w
                            (<[json_path id := File (JSON_stringify (VObj document))]>
                               (files w))
                            (if ToBoolean (member (VObj document) "id")
                             then ids_drawn w else S (ids_drawn w))
                            (clock_reads w)).
  { destruct (files w !! json_path (assigned_id document w)) as [[|]|];
      try discriminate; by injection Hrun as <- <-. }
  destruct Hdone as [Hid ->]. split; [exact Hid|]. split; [|split].
  - rewrite legacy_findOne_run, json_path_ToString. simpl.
    by rewrite lookup_insert_eq.
  - reflexivity.
  - intros Hnone. rewrite json_clone_obj. eexists. split; [reflexivity|].
    by rewrite lookup_omap, Hnone.
Qed.

Lemma legacy_insertOne_carol :
  let run := Legacy.insertOne carol (world people None) in
  fst run = Ok (VStr (ids 0))
  /\ Legacy.findOne (ids 0) (snd run) = (Ok (VObj carol), snd run).
Proof.
  intros run.
  destruct (legacy_insertOne_then_findOne carol (world people None) (snd run)
              (VStr (ids 0))) as (_ & Hfind & _).
  { vm_compute. reflexivity. }
  split; [vm_compute; reflexivity|].
  etrans; [exact Hfind|]. vm_compute. reflexivity.
Defined.

(** Property X23. On a filter whose values are all primitives and a
    collection without [.DS_Store] artifacts, [find(query)] of
    src/src/model.ts does what [findMany(query)] of part_000 lines 347-377
    does: the same result or the same error, and the same world. (Lines
    36-66 word the error with the collection path.) *)
Theorem legacy_find_agrees_with_findMany (query : ODFilter) (w : World) :
  literal_filter query = true ->
  artifacts (files w) = [] ->
  Legacy.find query w = findMany (Some query) w.
Proof.
  intros Hq Hart. unfold Legacy.find, findMany, bind, readdir, try_catch.
  by rewrite (find_loop_findMany_loop query _ Hq (artifacts_none _ Hart)).
Qed.

Lemma legacy_find_named_B :
  Legacy.find named_B (world pair None) = findMany (Some named_B) (world pair None)
  /\ findMany (Some named_B) (world pair None) = (Ok [VObj bob], world pair None).
Proof.
  split.
  - apply legacy_find_agrees_with_findMany; vm_compute; reflexivity.
  - vm_compute. reflexivity.
Defined.

(** Property X24. On a filter whose values are all primitives and a
    collection without [.DS_Store] artifacts, [updateMany(filter, update)]
    of src/src/model.ts leaves the world [findManyAndUpdate(filter, update)]
    of part_000 leaves, and fails when and where that one fails, with the
    same cause under its own message; it returns nothing where the other
    returns the documents. *)
Theorem legacy_updateMany_agrees_with_findManyAndUpdate
    (query : ODFilter) (update : obj) (w : World) :
  literal_filter query = true ->
  artifacts (files w) = [] ->
  Legacy.updateMany query update w
  = match findManyAndUpdate query update w with
    | (Ok _, w') => (Ok tt, w')
    | (Throw (Error _ cause), w') =>
        (Throw (Error "Error updating documents" cause), w')
    | (Throw e, w') => (Throw e, w')
    end.
Proof.
  intros Hq Hart.
  unfold Legacy.updateMany, findManyAndUpdate, bind, readdir, try_catch.
  rewrite (updateMany_loop_findManyAndUpdate_loop query update _ Hq
             (artifacts_none _ Hart) [] w).
  by destruct (findManyAndUpdate_loop _ _ _ _ w) as [[l|e] w'].
Qed.

Lemma legacy_updateMany_named_B :
  let after := snd (findManyAndUpdate named_B birthday (world pair None)) in
  Legacy.updateMany named_B birthday (world pair None) = (Ok tt, after)
  /\ files after !! "b.json"
     = Some (File (JSON_stringify (VObj (birthday ∪ bob)))).
Proof.
  intros after. split; [|vm_compute; reflexivity].
  rewrite (legacy_updateMany_agrees_with_findManyAndUpdate named_B birthday
             (world pair None)); vm_compute; reflexivity.
Defined.



End LegacyProperties.

(* ===================================================================== *)
(** ** Properties of the backup *)
(* ===================================================================== *)

Module BackupProperties.
Import JS Fs ODDb BackupTerms Examples MoreExamples.
Import BackupFacts SnapshotFacts TreeFacts SweepFacts.
Local Open Scope Z_scope.

Lemma In_put_entry_ne (name : string) (x : node) (l : list (string * node))
    (e : string * node) :
  fst e <> name -> In e l -> In e (put_entry name x l).
Proof.
  intros Hne. induction l as [|[m y] l IH]; simpl; [tauto|].
  destruct (String.eqb m name) eqn:E.
  - apply String.eqb_eq in E. subst m.
    intros [<-|Hin]; [by destruct Hne|by right].
  - intros [<-|Hin]; [by left|right; auto].
Qed.

(** Property X26. [rmdir] on a directory tree without symbolic links
    returns normally and nothing is left at the path: every regular file
    is unlinked, every directory below is emptied and removed, and then the
    directory itself. On a regular file it throws ENOTDIR (from
    [readdirSync]) and the file stays. *)
Theorem rmdir_removes_a_tree_without_links
    (entries : list (string * node)) (bytes : string) :
  link_free (Folder entries) = true ->
  rmdir (Folder entries) = Some (Ok tt, None)
  /\ rmdir (RegularFile bytes) = Some (Throw ENOTDIR, Some (RegularFile bytes)).
Proof.
  intros Hfree. split; [|reflexivity].
  by apply (rmdir_link_free (Folder entries) entries).
Qed.

Lemma rmdir_on_a_snapshot :
  rmdir snapshot = Some (Ok tt, None)
  /\ rmdir (RegularFile "{}") = Some (Throw ENOTDIR, Some (RegularFile "{}")).
Proof.
  apply (rmdir_removes_a_tree_without_links
           [("users", Folder [("a.json", RegularFile "{}")])] "{}").
  reflexivity.
Defined.

(** Property X27. [copyDir] of a directory tree, every directory of which
    lists a name once, to a path where nothing is yet returns normally.
    When it returns the destination holds the directories and the symbolic
    links of the source and none of its regular files: for each regular
    file a stream has been started, in the order of the listings, with the
    path of the file and its bytes, and nothing of it is written so far. *)
Theorem copyDir_makes_the_directories_and_starts_the_streams
    (files : list (string * node)) :
  well_listed (Folder files) = true ->
  copyDir (Folder files) None
  = Some (Ok tt, Some (skeleton (Folder files)), streams_of (Folder files)).
Proof.
  intros Hw. by apply (copyDir_skeleton (Folder files) files).
Qed.

Lemma copyDir_of_the_store :
  copyDir (Folder store) None
  = Some (Ok tt,
          Some (Folder [("users", Folder [("latest", SymbolicLink "a.json")])]),
          [(["users"; "a.json"], "{}"); (["config.json"], "{}")]).
Proof.
  etrans;
    [apply (copyDir_makes_the_directories_and_starts_the_streams store);
     reflexivity|].
  vm_compute. reflexivity.
Defined.

(** Property X28. Let the backup directory hold snapshots only, each under
    the name of the day it was taken, the outdated ones directories without
    links, let the store be a directory tree every directory of which lists
    a name once, and let the name of the new snapshot be free. Then
    [backup()] returns normally: the store is as it was, the backup
    directory holds the snapshots that are not outdated, in their order,
    followed by the new snapshot with the directories and links of the
    store, and the streams for the regular files of the store have been
    added to those that are pending. *)
Theorem backup_gets_through (today : Date) (d : Disk)
    (snapshots : list Snapshot) (files : list (string * node)) :
  plausible today ->
  listing d = map named snapshots ->
  Forall (fun s => calendar (taken s)) snapshots ->
  Forall (fun s => outdated today (taken s) = true -> removable (tree s) = true)
         snapshots ->
  db d = Some files ->
  well_listed (Folder files) = true ->
  let name := snapshot_name today (next_sequence today snapshots) in
  ~ In name (names (listing d)) ->
  backup today d
  = Some (Ok tt,
          {| db := Some files;
             backups := Some (map named (retained today snapshots)
                              ++ [(name, skeleton (Folder files))]);
             piping := piping d ++ map (under name) (streams_of (Folder files)) |}).
Proof.
  intros Hp Hlist Hcal Hrm Hdb Hw name Hfree.
  rewrite (backup_succeeds today d snapshots files Hp Hlist Hcal Hrm Hdb Hw Hfree).
  fold name. by rewrite Hdb.
Qed.

Lemma backup_of_the_store :
  backup ides_of_march with_store
  = Some (Ok tt,
          {| db := Some store;
             backups :=
               Some [("2024-2-15-1", snapshot); ("2024-3-14-1", snapshot);
                     ("2024-3-15-1",
                      Folder [("users", Folder [("latest", SymbolicLink "a.json")])])];
             piping := [(["2024-3-15-1"; "users"; "a.json"], "{}");
                        (["2024-3-15-1"; "config.json"], "{}")] |}).
Proof.
  etrans; [apply (backup_gets_through ides_of_march with_store the_four store)|].
  - unfold plausible, msPerDay; simpl; lia.
  - reflexivity.
  - repeat constructor; simpl; lia.
  - repeat constructor.
  - reflexivity.
  - reflexivity.
  - vm_compute. intros [H|[H|[H|[H|[]]]]]; discriminate.
  - vm_compute. reflexivity.
Defined.

(** Property X29. Let the backup directory hold snapshots only, each under
    the name of the day it was taken, the outdated ones directories without
    links. Whatever the outcome of [backup()], a snapshot that is not
    outdated is in the backup directory afterwards under its name and with
    the tree it had, unless it bears the name the copy is made under. *)
Theorem backup_leaves_the_other_snapshots_alone (today : Date) (d d' : Disk)
    (snapshots : list Snapshot) (r : outcome unit) (s : Snapshot) :
  plausible today ->
  listing d = map named snapshots ->
  Forall (fun s => calendar (taken s)) snapshots ->
  Forall (fun s => outdated today (taken s) = true -> removable (tree s) = true)
         snapshots ->
  backup today d = Some (r, d') ->
  In s snapshots ->
  outdated today (taken s) = false ->
  snapshot_name (taken s) (sequence s)
  <> snapshot_name today (next_sequence today snapshots) ->
  In (snapshot_name (taken s) (sequence s), tree s) (listing d').
Proof.
  intros Hp Hlist Hcal Hrm Hrun Hs Hkeep Hne.
  destruct (backup_leaves today d d' snapshots r Hp Hlist Hcal Hrm Hrun)
    as [copied ->].
  apply In_put_entry_ne; [exact Hne|].
  change (In (named s) (map named (retained today snapshots))).
  apply in_map, filter_In. split; [exact Hs|]. by rewrite Hkeep.
Qed.

Lemma backup_leaves_the_snapshot_of_yesterday :
  exists d',
    backup ides_of_march with_store = Some (Ok tt, d')
    /\ In ("2024-3-14-1", snapshot) (listing d').
Proof.
  assert (Hrun : exists d', backup ides_of_march with_store = Some (Ok tt, d')).
  { eexists. vm_compute. reflexivity. }
  destruct Hrun as [d' Hrun]. exists d'. split; [exact Hrun|].
  apply (backup_leaves_the_other_snapshots_alone ides_of_march with_store d'
           the_four (Ok tt) (at_day 2024 2 14 1 snapshot)).
  - unfold plausible, msPerDay; simpl; lia.
  - reflexivity.
  - repeat constructor; simpl; lia.
  - repeat constructor.
  - exact Hrun.
  - simpl. tauto.
  - reflexivity.
  - vm_compute. discriminate.
Defined.

(** Property X30. Let the backup directory hold snapshots only, each under
    the name of the day it was taken, the outdated ones directories without
    links, and let the name of the new snapshot be free. When the store
    directory does not exist, [backup()] throws ENOENT (from [readdirSync]
    in [copyDir]) after it has made its changes: the outdated snapshots are
    gone, an empty directory stands under the name of the new snapshot, and
    no stream has been started. *)
Theorem backup_without_a_store_leaves_an_empty_snapshot (today : Date) (d : Disk)
    (snapshots : list Snapshot) :
  plausible today ->
  listing d = map named snapshots ->
  Forall (fun s => calendar (taken s)) snapshots ->
  Forall (fun s => outdated today (taken s) = true -> removable (tree s) = true)
         snapshots ->
  db d = None ->
  let name := snapshot_name today (next_sequence today snapshots) in
  ~ In name (names (listing d)) ->
  backup today d
  = Some (Throw ENOENT,
          {| db := None;
             backups := Some (map named (retained today snapshots)
                              ++ [(name, Folder [])]);
             piping := piping d |}).
Proof.
  intros Hp Hlist Hcal Hrm Hdb name Hfree.
  rewrite (backup_on_snapshots today d snapshots Hp Hlist Hcal Hrm), Hdb.
  fold name.
  assert (Hout : ~ In name (names (map named (retained today snapshots)))).
  { intros Hin. apply Hfree. rewrite Hlist. by eapply names_retained. }
  rewrite (proj2 (lookup_entry_None _ _) Hout).
  simpl. unfold with_backups. by rewrite Hdb, put_entry_fresh.
Qed.

Lemma backup_without_the_store :
  backup ides_of_march no_store
  = Some (Throw ENOENT,
          {| db := None;
             backups :=
               Some [("2024-2-15-1", snapshot); ("2024-3-14-1", snapshot);
                     ("2024-3-15-1", Folder [])];
             piping := [] |}).
Proof.
  etrans; [apply (backup_without_a_store_leaves_an_empty_snapshot
                    ides_of_march no_store the_four)|].
  - unfold plausible, msPerDay; simpl; lia.
  - reflexivity.
  - repeat constructor; simpl; lia.
  - repeat constructor.
  - reflexivity.
  - vm_compute. intros [H|[H|[H|[H|[]]]]]; discriminate.
  - vm_compute. reflexivity.
Defined.

End BackupProperties.
